(** * ts-classes-to-api-documentation: TsFileParser and MdWriter

    A shallow embedding of [src/ts-file-parser/index.ts] and
    [src/md-writer/md-writer.ts], and the properties of the
    specification that are stated about them.

    - JavaScript strings are modelled as [string]; every string
      operation the code uses ([indexOf], [slice], [length],
      concatenation, template literals) works position by position, so
      the character type plays no role.
    - A JavaScript object used as a dictionary is an association list in
      insertion order ([JsObject]): [Object.keys] depends on that order,
      and a property read also consults [Object.prototype].
    - The syntax tree supplied by ts-morph is a record of the getters the
      code calls ([ClassDeclaration] and its member declarations).
    - Exceptions are a [Result]; the parser's registry and the Markdown
      file are threaded explicitly. *)

From Stdlib Require Import ZArith List Bool Lia.
From Stdlib Require Import Strings.String Strings.Ascii.
From Stdlib Require Import Sorting.Permutation Sorting.Sorted.
Import ListNotations.

#[local] Set Warnings "-register-all".

Open Scope string_scope.
Open Scope Z_scope.

(** ** JavaScript values and strings *)

(** The line feed of the source's ['\n']. *)
Definition nl : string := String (ascii_of_nat 10) EmptyString.

(** What a template literal [`${x}`] (or [String(x)]) yields for a value
    that is a string or [undefined]. *)
Definition js_string (x : option string) : string :=
  match x with
  | Some s => s
  | None => "undefined"
  end.

(** Truthiness of a value that is a string or [undefined]: [undefined]
    and the empty string are falsy. *)
Definition string_truthy (x : option string) : bool :=
  match x with
  | Some EmptyString => false
  | Some _ => true
  | None => false
  end.

(** [s.length]. *)
Definition js_length (s : string) : Z := Z.of_nat (String.length s).

(** [data.indexOf(pat)] scanning from position [i]: the first position at
    which [pat] occurs, or [-1]. *)
Fixpoint indexOf_from (pat data : string) (i : Z) : Z :=
  if String.prefix pat data then i
  else match data with
       | EmptyString => -1
       | String _ rest => indexOf_from pat rest (i + 1)
       end.

Definition indexOf (data pat : string) : Z := indexOf_from pat data 0.

(** How [slice] clamps a relative index: a negative one counts from the
    end. *)
Definition clamp_index (len k : Z) : Z :=
  if k <? 0 then Z.max (len + k) 0 else Z.min k len.

(** [s.slice(start, end)]. *)
Definition slice (s : string) (start end_ : Z) : string :=
  let len := js_length s in
  let from := clamp_index len start in
  let to := clamp_index len end_ in
  String.substring (Z.to_nat from) (Z.to_nat (to - from)) s.

(** [s.slice(start)]. *)
Definition slice_from (s : string) (start : Z) : string :=
  slice s start (js_length s).

(** [arr.join(sep)] on an array of strings. *)
Fixpoint join (sep : string) (l : list string) : string :=
  match l with
  | [] => ""
  | [x] => x
  | x :: rest => x ++ sep ++ join sep rest
  end.

(** [arr.join('')]. *)
Definition join_empty (l : list string) : string :=
  fold_right String.append "" l.

(** Thrown values. *)
Inductive JsError : Type :=
| Error (message : string)
| TypeError (message : string)
| IoError.

Inductive Result (A : Type) : Type :=
| Ok (a : A)
| Throw (e : JsError).
Arguments Ok {A} a.
Arguments Throw {A} e.

(** ** Objects used as dictionaries *)

(** Own enumerable properties, in the order they were created. *)
Definition JsObject (V : Type) : Type := list (string * V).

(** The properties every object literal inherits from
    [Object.prototype]; each of them is a function or an object, hence
    truthy. *)
Definition object_prototype_keys : list string :=
  [ "constructor"; "__defineGetter__"; "__defineSetter__"; "hasOwnProperty";
    "__lookupGetter__"; "__lookupSetter__"; "isPrototypeOf";
    "propertyIsEnumerable"; "toString"; "valueOf"; "__proto__";
    "toLocaleString" ].

Definition inherited_key (k : string) : bool :=
  existsb (String.eqb k) object_prototype_keys.

(** The result of reading [o[k]]. *)
Inductive JsLookup (V : Type) : Type :=
| Own (v : V)
| Inherited (k : string)
| Undefined.
Arguments Own {V} v.
Arguments Inherited {V} k.
Arguments Undefined {V}.

Fixpoint own_get {V} (o : JsObject V) (k : string) : option V :=
  match o with
  | [] => None
  | (k', v) :: rest => if String.eqb k' k then Some v else own_get rest k
  end.

(** [o[k]]: an own property wins, then the prototype is asked. *)
Definition js_get {V} (o : JsObject V) (k : string) : JsLookup V :=
  match own_get o k with
  | Some v => Own v
  | None => if inherited_key k then Inherited k else Undefined
  end.

(** Truthiness of [o[k]] when the stored values are objects. *)
Definition truthy {V} (x : JsLookup V) : bool :=
  match x with
  | Own _ => true
  | Inherited _ => true
  | Undefined => false
  end.

(** [o[k] = v].  An existing own property keeps its place, a new one is
    created last.  Every assignment of the source is guarded by
    [!o[k]], so it is never reached for an inherited key. *)
Fixpoint js_set {V} (o : JsObject V) (k : string) (v : V) : JsObject V :=
  match o with
  | [] => [(k, v)]
  | (k', v') :: rest =>
      if String.eqb k' k then (k', v) :: rest else (k', v') :: js_set rest k v
  end.

(** Stable insertion sort, the model of [Array.prototype.sort] with a
    consistent comparator and of the ascending order of index keys. *)
Section Sort.
Context {A : Type} (le : A -> A -> bool).

Fixpoint insert_sorted (x : A) (l : list A) : list A :=
  match l with
  | [] => [x]
  | y :: rest => if le x y then x :: l else y :: insert_sorted x rest
  end.

Definition stable_sort (l : list A) : list A :=
  fold_right insert_sorted [] l.
End Sort.

Definition is_digit (c : ascii) : bool :=
  let n := N_of_ascii c in (48 <=? n)%N && (n <=? 57)%N.

Fixpoint digits_value (s : string) (acc : N) : N :=
  match s with
  | EmptyString => acc
  | String c rest => digits_value rest (10 * acc + (N_of_ascii c - 48))%N
  end.

Fixpoint all_digits (s : string) : bool :=
  match s with
  | EmptyString => true
  | String c rest => is_digit c && all_digits rest
  end.

(** A key is an array index when it is the canonical decimal form of an
    integer below [2^32 - 1]. *)
Definition array_index (k : string) : option N :=
  match k with
  | EmptyString => None
  | String c rest =>
      if all_digits k
         && (negb (Ascii.eqb c "0"%char) || String.eqb rest "")
         && (digits_value k 0 <? 4294967295)%N
      then Some (digits_value k 0)
      else None
  end.

Definition is_array_index (k : string) : bool :=
  match array_index k with Some _ => true | None => false end.

Definition index_le (a b : string) : bool :=
  match array_index a, array_index b with
  | Some x, Some y => (x <=? y)%N
  | _, _ => true
  end.

(** [Object.keys(o)]: index keys in ascending order, then the other keys
    in creation order. *)
Definition Object_keys {V} (o : JsObject V) : list string :=
  let ks := map fst o in
  stable_sort index_le (filter is_array_index ks)
  ++ filter (fun k => negb (is_array_index k)) ks.

(** ** The syntax tree supplied by ts-morph *)

Inductive Scope : Type := Public | Protected | Private.

(** [scope === Scope.Public || !scope]. *)
Definition public_or_unspecified (scope : option Scope) : bool :=
  match scope with
  | Some Public => true
  | Some _ => false
  | None => true
  end.

Module JSDoc.
Record t : Type := { getCommentText : option string }.
End JSDoc.

(** [docs?.[0]?.getCommentText()]. *)
Definition firstCommentText (docs : list JSDoc.t) : option string :=
  match docs with
  | d :: _ => JSDoc.getCommentText d
  | [] => None
  end.

(** A property declaration: [getText()], [getJsDocs()] and the fields of
    [getStructure()] that the code reads. *)
Module PropertyDeclaration.
Record t : Type :=
  { getText : string;
    getJsDocs : list JSDoc.t;
    name : string;
    type : option string;
    scope : option Scope;
    isStatic : bool }.
End PropertyDeclaration.

Module GetAccessorDeclaration.
Record t : Type :=
  { getText : string;
    getJsDocs : list JSDoc.t;
    name : string;
    returnType : option string;
    scope : option Scope;
    isStatic : bool }.
End GetAccessorDeclaration.

Module MethodDeclaration.
Record t : Type :=
  { getText : string;
    getJsDocs : list JSDoc.t;
    name : string;
    returnType : option string;
    scope : option Scope;
    isStatic : bool }.
End MethodDeclaration.

Module ConstructorDeclaration.
Record t : Type :=
  { getText : string;
    getJsDocs : list JSDoc.t }.
End ConstructorDeclaration.

(** A class declaration with the getters the parser calls.
    [getBaseClass] is the resolved base class itself, so the chain of
    ancestors is finite. *)
Inductive ClassDeclaration : Type :=
  mkClass
    { getName : option string;
      getTypeParameters : list string;
      getJsDocs : list JSDoc.t;
      getConstructors : list ConstructorDeclaration.t;
      getProperties : list PropertyDeclaration.t;
      getGetAccessors : list GetAccessorDeclaration.t;
      getMethods : list MethodDeclaration.t;
      getBaseClass : option ClassDeclaration }.

(** ** The records of [src/types/index.ts] *)

Module PropertyMap.
Record t : Type :=
  { title : string;
    type : string;
    isStatic : bool;
    description : option string }.
End PropertyMap.

Module AccessorMap.
Record t : Type :=
  { title : string;
    returnType : string;
    isStatic : bool;
    description : option string }.
End AccessorMap.

Module MethodMap.
Record t : Type :=
  { title : string;
    returnType : string;
    isStatic : bool;
    description : option string }.
End MethodMap.

Definition PropertiesMap : Type := JsObject PropertyMap.t.
Definition AccessorsMap : Type := JsObject AccessorMap.t.
Definition MethodsMap : Type := JsObject MethodMap.t.

(** The [constructor] field of [ClassDataMap].  Its [title] is declared a
    string, but it is assigned [getConstructors()?.[0]?.getText()], which
    is [undefined] for a class without constructor. *)
Module ConstructorData.
Record t : Type :=
  { title : option string;
    description : option string }.
End ConstructorData.

Module ClassDataMap.
Record t : Type :=
  { title : string;
    description : option string;
    constructor_ : ConstructorData.t;
    properties : PropertiesMap;
    accessors : AccessorsMap;
    methods : MethodsMap }.
End ClassDataMap.

Definition ClassesDataMap : Type := JsObject ClassDataMap.t.

(** ** TsFileParser *)

(** [type ? String(type) : 'unknown']. *)
Definition type_text (type : option string) : string :=
  if string_truthy type then js_string type else "unknown".

Definition propertiesReduceFn (acc : PropertiesMap) (p : PropertyDeclaration.t)
  : PropertiesMap :=
  let name := PropertyDeclaration.name p in
  let scope := PropertyDeclaration.scope p in
  if negb (truthy (js_get acc name)) && public_or_unspecified scope then
    js_set acc name
      {| PropertyMap.title := PropertyDeclaration.getText p;
         PropertyMap.type := type_text (PropertyDeclaration.type p);
         PropertyMap.description :=
           firstCommentText (PropertyDeclaration.getJsDocs p);
         PropertyMap.isStatic := PropertyDeclaration.isStatic p |}
  else acc.

Definition accessorsReduceFn (acc : AccessorsMap) (g : GetAccessorDeclaration.t)
  : AccessorsMap :=
  let name := GetAccessorDeclaration.name g in
  let scope := GetAccessorDeclaration.scope g in
  if negb (truthy (js_get acc name)) && public_or_unspecified scope then
    js_set acc name
      {| AccessorMap.title := GetAccessorDeclaration.getText g;
         AccessorMap.returnType :=
           type_text (GetAccessorDeclaration.returnType g);
         AccessorMap.description :=
           firstCommentText (GetAccessorDeclaration.getJsDocs g);
         AccessorMap.isStatic := GetAccessorDeclaration.isStatic g |}
  else acc.

Definition methodsReduceFn (acc : MethodsMap) (m : MethodDeclaration.t)
  : MethodsMap :=
  let name := MethodDeclaration.name m in
  let scope := MethodDeclaration.scope m in
  if negb (truthy (js_get acc name)) && public_or_unspecified scope then
    js_set acc name
      {| MethodMap.title := MethodDeclaration.getText m;
         MethodMap.returnType := type_text (MethodDeclaration.returnType m);
         MethodMap.description :=
           firstCommentText (MethodDeclaration.getJsDocs m);
         MethodMap.isStatic := MethodDeclaration.isStatic m |}
  else acc.

(** The three collectors: reduce the members of [c] into [map], then go
    on with the base class, if any. *)
Fixpoint getPublicProperties (c : ClassDeclaration) (map : PropertiesMap)
  : PropertiesMap :=
  let propertiesMap := fold_left propertiesReduceFn (getProperties c) map in
  match getBaseClass c with
  | Some parentClass => getPublicProperties parentClass propertiesMap
  | None => propertiesMap
  end.

Fixpoint getPublicAccessors (c : ClassDeclaration) (map : AccessorsMap)
  : AccessorsMap :=
  let accessorsMap := fold_left accessorsReduceFn (getGetAccessors c) map in
  match getBaseClass c with
  | Some parentClass => getPublicAccessors parentClass accessorsMap
  | None => accessorsMap
  end.

Fixpoint getPublicMethods (c : ClassDeclaration) (map : MethodsMap)
  : MethodsMap :=
  let methodsMap := fold_left methodsReduceFn (getMethods c) map in
  match getBaseClass c with
  | Some parentClass => getPublicMethods parentClass methodsMap
  | None => methodsMap
  end.

Definition getTypedClassName (c : ClassDeclaration) : string :=
  let className := js_string (getName c) in
  let typeParameters := getTypeParameters c in
  match typeParameters with
  | [] => className
  | _ :: _ => className ++ "<" ++ join ", " typeParameters ++ ">"
  end.

(** The parser object: the parsed source file (its class declarations)
    and the registry of resolved classes, [{}] at construction. *)
Record TsFileParser : Type :=
  { sourceFile : list ClassDeclaration;
    classesDataMap : ClassesDataMap }.

Definition newTsFileParser (classes : list ClassDeclaration) : TsFileParser :=
  {| sourceFile := classes; classesDataMap := [] |}.

(** [classDeclaration.getName() === className]. *)
Definition name_is (className : string) (c : ClassDeclaration) : bool :=
  match getName c with
  | Some n => String.eqb n className
  | None => false
  end.

(** The object literal that [setClassData] stores. *)
Definition classDataOf (c : ClassDeclaration) : ClassDataMap.t :=
  {| ClassDataMap.title := getTypedClassName c;
     ClassDataMap.description := firstCommentText (getJsDocs c);
     ClassDataMap.constructor_ :=
       {| ConstructorData.title :=
            match getConstructors c with
            | k :: _ => Some (ConstructorDeclaration.getText k)
            | [] => None
            end;
          ConstructorData.description :=
            match getConstructors c with
            | k :: _ => firstCommentText (ConstructorDeclaration.getJsDocs k)
            | [] => None
            end |};
     ClassDataMap.properties := getPublicProperties c [];
     ClassDataMap.accessors := getPublicAccessors c [];
     ClassDataMap.methods := getPublicMethods c [] |}.

(** A method that may throw returns its result or the thrown value,
    and the parser as the call leaves it. *)
Definition setClassData (this : TsFileParser) (className : string)
  : Result unit * TsFileParser :=
  match find (name_is className) (sourceFile this) with
  | None => (Throw (Error "className not found!"), this)
  | Some classDeclaration =>
      let key := js_string (getName classDeclaration) in
      (Ok tt,
       {| sourceFile := sourceFile this;
          classesDataMap :=
            js_set (classesDataMap this) key (classDataOf classDeclaration) |})
  end.

Definition getClassData (this : TsFileParser) (className : string)
  : Result (JsLookup ClassDataMap.t) * TsFileParser :=
  if negb (truthy (js_get (classesDataMap this) className)) then
    match setClassData this className with
    | (Ok _, this') => (Ok (js_get (classesDataMap this') className), this')
    | (Throw e, this') => (Throw e, this')
    end
  else (Ok (js_get (classesDataMap this) className), this).

(** ** MdWriter *)

(** What [printMap] reads of a [PropertyMap], [AccessorMap] or
    [MethodMap]. *)
Class MemberRecord (R : Type) : Type :=
  { member_title : R -> string;
    member_description : R -> option string }.

#[global] Instance PropertyMap_member : MemberRecord PropertyMap.t :=
  {| member_title := PropertyMap.title;
     member_description := PropertyMap.description |}.

#[global] Instance AccessorMap_member : MemberRecord AccessorMap.t :=
  {| member_title := AccessorMap.title;
     member_description := AccessorMap.description |}.

#[global] Instance MethodMap_member : MemberRecord MethodMap.t :=
  {| member_title := MethodMap.title;
     member_description := MethodMap.description |}.

Definition printH3 (label : string) : string :=
  "### " ++ label ++ nl.

Definition printH4 (label : string) : string :=
  "#### " ++ label ++ nl.

Definition printDescription (description : option string) : string :=
  if string_truthy description then js_string description ++ nl else nl.

Definition printListItem (title description : option string) : string :=
  "- `" ++ js_string title ++ "`: " ++ js_string description ++ nl.

(** The file system, as far as the writer sees it: the text stored at a
    path, if the path can be read.  Whether a path can be written is
    the [writable] field of [State]. *)
Definition FileSystem : Type := string -> option string.

Definition writeFile (files : FileSystem) (path content : string)
  : FileSystem :=
  fun p => if String.eqb p path then Some content else files p.

(** What a call does to the outside, in order.  [FsWrite] is a write
    that succeeded, [FsWriteRejected] a call of [fs.writeFile] that
    reported an error. *)
Inductive Effect : Type :=
| FsRead (path : string)
| FsWrite (path content : string)
| FsWriteRejected (path content : string)
| ConsoleLog (message : string)
| ConsoleError (message : string).

Record MdWriter : Type :=
  { tsFileParser : TsFileParser;
    mdPath : string }.

Definition newMdWriter (classes : list ClassDeclaration) (mdPath : string)
  : MdWriter :=
  {| tsFileParser := newTsFileParser classes; mdPath := mdPath |}.

(** The writer together with the files, the paths at which
    [fs.writeFile] succeeds, and the effects performed so far. *)
Record State : Type :=
  { writer : MdWriter;
    files : FileSystem;
    writable : string -> bool;
    effects : list Effect }.

Definition startCommentOf (className : string) : string :=
  "<!-- START CLASS API: " ++ className ++ " -->".

Definition endCommentOf (className : string) : string :=
  "<!-- END CLASS API: " ++ className ++ " -->".

Section Writer.

(** [a.localeCompare(b, 'en', { sensitivity: 'base' })], the collation
    of the runtime: negative, zero or positive. *)
Variable localeCompare : string -> string -> Z.

(** [keys.sort((a, b) => a.localeCompare(b, ...))]. *)
Definition sortKeys (keys : list string) : list string :=
  stable_sort (fun a b => localeCompare a b <=? 0) keys.

(** The line of one key.  The keys come from [Object.keys], so the read
    [properties[key]] always finds an own record (lemma
    [Object_keys_own]); a value without [title] and [description] would
    print both as [undefined]. *)
Definition printKey {R} `{MemberRecord R} (properties : JsObject R)
    (key : string) : string :=
  match js_get properties key with
  | Own r => printListItem (Some (member_title r)) (member_description r)
  | _ => printListItem None None
  end.

Definition printMap {R} `{MemberRecord R} (title : string)
    (properties : JsObject R) : string :=
  let keyList := Object_keys properties in
  match keyList with
  | [] => nl
  | _ :: _ =>
      printH4 title
      ++ join_empty (map (printKey properties)
                         (sortKeys (Object_keys properties)))
      ++ nl
  end.

(** [classData] is whatever [getClassData] returned.  For a value
    inherited from [Object.prototype] the reads of [title],
    [description] and [constructor.title] give [undefined], and
    [Object.keys(classData.properties)] throws. *)
Definition getApiClassContent (this : TsFileParser) (className : string)
  : Result string * TsFileParser :=
  match getClassData this className with
  | (Throw e, this') => (Throw e, this')
  | (Ok (Own classData), this') =>
      let ctor := ClassDataMap.constructor_ classData in
      (Ok (printH3 (ClassDataMap.title classData)
           ++ printDescription (ClassDataMap.description classData)
           ++ printH4 "Constructor"
           ++ printListItem (ConstructorData.title ctor)
                            (ConstructorData.description ctor)
           ++ printMap "Properties" (ClassDataMap.properties classData)
           ++ printMap "Accessors" (ClassDataMap.accessors classData)
           ++ printMap "Methods" (ClassDataMap.methods classData)),
       this')
  | (Ok (Inherited _), this') =>
      (Throw (TypeError "Cannot convert undefined or null to object"), this')
  | (Ok Undefined, this') =>
      (Throw (TypeError "Cannot read properties of undefined"), this')
  end.

Definition withEffects (st : State) (p : TsFileParser) (fs : FileSystem)
    (es : list Effect) : State :=
  {| writer := {| tsFileParser := p; mdPath := mdPath (writer st) |};
     files := fs;
     writable := writable st;
     effects := effects st ++ es |}.

(** One awaited call.  A read or a write that fails rejects the
    promise; a write that fails is taken to leave the file as it
    was. *)
Definition writeApiClassContent (st : State) (className : string)
  : Result unit * State :=
  let this := writer st in
  let path := mdPath this in
  match files st path with
  | None =>
      (Throw IoError,
       withEffects st (tsFileParser this) (files st) [FsRead path])
  | Some data =>
      let startComment := startCommentOf className in
      let endComment := endCommentOf className in
      let startIndex := indexOf data startComment in
      let endIndex := indexOf data endComment + js_length endComment in
      if negb (startIndex =? -1) && negb (endIndex =? -1) then
        match getApiClassContent (tsFileParser this) className with
        | (Throw e, p) =>
            (Throw e, withEffects st p (files st) [FsRead path])
        | (Ok content, p) =>
            let updatedContent :=
              slice data 0 (startIndex + js_length startComment)
              ++ nl
              ++ content
              ++ slice_from data (endIndex - js_length endComment) in
            if writable st path then
              (Ok tt,
               withEffects st p (writeFile (files st) path updatedContent)
                 [ FsRead path;
                   FsWrite path updatedContent;
                   ConsoleLog
                     ("Content for " ++ className
                      ++ " inserted successfully.") ])
            else
              (Throw IoError,
               withEffects st p (files st)
                 [ FsRead path; FsWriteRejected path updatedContent ])
        end
      else
        (Ok tt,
         withEffects st (tsFileParser this) (files st)
           [ FsRead path;
             ConsoleError
               ("Start and/or end comments not found for " ++ className
                ++ " in the file.") ])
  end.

End Writer.

(** Whether a list of effects holds a write to a file. *)
Definition wrote (es : list Effect) : bool :=
  existsb (fun e => match e with FsWrite _ _ => true | _ => false end) es.

(** ** A small example *)

(** A collation for the examples: code order of the lower-cased
    strings. *)
Definition lowerAscii (c : ascii) : ascii :=
  let n := N_of_ascii c in
  if (65 <=? n)%N && (n <=? 90)%N then ascii_of_N (n + 32) else c.

Fixpoint lowerCase (s : string) : string :=
  match s with
  | EmptyString => EmptyString
  | String c rest => String (lowerAscii c) (lowerCase rest)
  end.

Definition baseCompare (a b : string) : Z :=
  match String.compare (lowerCase a) (lowerCase b) with
  | Lt => -1
  | Eq => 0
  | Gt => 1
  end.

Definition exBase_x : PropertyDeclaration.t :=
  {| PropertyDeclaration.getText := "protected x: number;";
     PropertyDeclaration.getJsDocs := [];
     PropertyDeclaration.name := "x";
     PropertyDeclaration.type := Some "number";
     PropertyDeclaration.scope := Some Protected;
     PropertyDeclaration.isStatic := false |}.

Definition exBase_y : PropertyDeclaration.t :=
  {| PropertyDeclaration.getText := "y: string;";
     PropertyDeclaration.getJsDocs :=
       [ {| JSDoc.getCommentText := Some "The base value." |} ];
     PropertyDeclaration.name := "y";
     PropertyDeclaration.type := Some "string";
     PropertyDeclaration.scope := None;
     PropertyDeclaration.isStatic := false |}.

Definition exBase_size : MethodDeclaration.t :=
  {| MethodDeclaration.getText := "size(): number;";
     MethodDeclaration.getJsDocs :=
       [ {| JSDoc.getCommentText := Some "Number of items." |} ];
     MethodDeclaration.name := "size";
     MethodDeclaration.returnType := Some "number";
     MethodDeclaration.scope := Some Public;
     MethodDeclaration.isStatic := false |}.

(** [declare class Base { protected x: number; y: string; size(): number }] *)
Definition exBase : ClassDeclaration :=
  {| getName := Some "Base";
     getTypeParameters := [];
     getJsDocs := [];
     getConstructors := [];
     getProperties := [exBase_x; exBase_y];
     getGetAccessors := [];
     getMethods := [exBase_size];
     getBaseClass := None |}.

Definition exFoo_x : PropertyDeclaration.t :=
  {| PropertyDeclaration.getText := "protected x: number;";
     PropertyDeclaration.getJsDocs := [];
     PropertyDeclaration.name := "x";
     PropertyDeclaration.type := Some "number";
     PropertyDeclaration.scope := Some Protected;
     PropertyDeclaration.isStatic := false |}.

Definition exFoo_y : PropertyDeclaration.t :=
  {| PropertyDeclaration.getText := "y: T;";
     PropertyDeclaration.getJsDocs := [];
     PropertyDeclaration.name := "y";
     PropertyDeclaration.type := Some "T";
     PropertyDeclaration.scope := None;
     PropertyDeclaration.isStatic := false |}.

Definition exFoo_Add : MethodDeclaration.t :=
  {| MethodDeclaration.getText := "Add(v: T): void;";
     MethodDeclaration.getJsDocs :=
       [ {| JSDoc.getCommentText := Some "Adds a value." |} ];
     MethodDeclaration.name := "Add";
     MethodDeclaration.returnType := Some "void";
     MethodDeclaration.scope := None;
     MethodDeclaration.isStatic := false |}.

(** [declare class Foo<T> extends Base { protected x: number; y: T;
    Add(v: T): void }], without constructor. *)
Definition exFoo : ClassDeclaration :=
  {| getName := Some "Foo";
     getTypeParameters := ["T"];
     getJsDocs := [];
     getConstructors := [];
     getProperties := [exFoo_x; exFoo_y];
     getGetAccessors := [];
     getMethods := [exFoo_Add];
     getBaseClass := Some exBase |}.

Definition exClasses : list ClassDeclaration := [exBase; exFoo].

(** A document with the markers of [Foo]. *)
Definition exDocument : string :=
  "a" ++ startCommentOf "Foo" ++ "bcd" ++ endCommentOf "Foo" ++ "xyz".

(** A writer on [exClasses] and a file system that holds [data] at the
    writer's path, where every write succeeds. *)
Definition exState (data : string) : State :=
  {| writer := newMdWriter exClasses "README.md";
     files := fun p => if String.eqb p "README.md" then Some data else None;
     writable := fun _ => true;
     effects := [] |}.

(** ** Notions used to state the properties *)

(** The class and its ancestors, most derived first. *)
Fixpoint chainOf (c : ClassDeclaration) : list ClassDeclaration :=
  c :: match getBaseClass c with
       | Some parentClass => chainOf parentClass
       | None => []
       end.

(** Induction along the chain of base classes. *)
Fixpoint ClassDeclaration_chain_ind (P : ClassDeclaration -> Prop)
    (step : forall c,
        (forall parent, getBaseClass c = Some parent -> P parent) -> P c)
    (c : ClassDeclaration) : P c :=
  step c
    (match c as c0
           return forall parent, getBaseClass c0 = Some parent -> P parent
     with
     | mkClass _ _ _ _ _ _ _ base =>
         match base as b
               return forall parent, b = Some parent -> P parent
         with
         | Some b0 =>
             fun parent (e : Some b0 = Some parent) =>
               match e in _ = y
                     return match y with Some q => P q | None => True end
               with
               | eq_refl => ClassDeclaration_chain_ind P step b0
               end
         | None =>
             fun parent (e : None = Some parent) =>
               match e in _ = y
                     return match y with Some _ => P parent | None => True end
               with
               | eq_refl => I
               end
         end
     end).

(** The reducers, once for the three kinds of member. *)
Section Reduce.
Context {D R : Type}.
Variable dname : D -> string.
Variable dscope : D -> option Scope.
Variable record : D -> R.

Definition reduceFn (acc : JsObject R) (d : D) : JsObject R :=
  if negb (truthy (js_get acc (dname d))) && public_or_unspecified (dscope d)
  then js_set acc (dname d) (record d)
  else acc.

(** The declaration a name is bound to: the first one with that name
    and a public or unspecified scope. *)
Definition declares (n : string) (d : D) : bool :=
  String.eqb (dname d) n && public_or_unspecified (dscope d).

(** The map collected along the chain of [c], from the empty map. *)
Definition collected (members : ClassDeclaration -> list D)
    (c : ClassDeclaration) : JsObject R :=
  fold_left reduceFn (flat_map members (chainOf c)) [].

End Reduce.

(** The records the three reducers build. *)
Definition propertyRecord (p : PropertyDeclaration.t) : PropertyMap.t :=
  {| PropertyMap.title := PropertyDeclaration.getText p;
     PropertyMap.type := type_text (PropertyDeclaration.type p);
     PropertyMap.description :=
       firstCommentText (PropertyDeclaration.getJsDocs p);
     PropertyMap.isStatic := PropertyDeclaration.isStatic p |}.

Definition accessorRecord (g : GetAccessorDeclaration.t) : AccessorMap.t :=
  {| AccessorMap.title := GetAccessorDeclaration.getText g;
     AccessorMap.returnType := type_text (GetAccessorDeclaration.returnType g);
     AccessorMap.description :=
       firstCommentText (GetAccessorDeclaration.getJsDocs g);
     AccessorMap.isStatic := GetAccessorDeclaration.isStatic g |}.

Definition methodRecord (m : MethodDeclaration.t) : MethodMap.t :=
  {| MethodMap.title := MethodDeclaration.getText m;
     MethodMap.returnType := type_text (MethodDeclaration.returnType m);
     MethodMap.description :=
       firstCommentText (MethodDeclaration.getJsDocs m);
     MethodMap.isStatic := MethodDeclaration.isStatic m |}.


(** The parsers a program can hold: a new one, and what calls of
    [getClassData] make of it. *)
Inductive reachable : TsFileParser -> Prop :=
| reachable_new (classes : list ClassDeclaration) :
    reachable (newTsFileParser classes)
| reachable_call (this : TsFileParser) (className : string)
    (r : Result (JsLookup ClassDataMap.t)) (this' : TsFileParser) :
    reachable this ->
    getClassData this className = (r, this') ->
    reachable this'.

(** The reads [classData.constructor.title] and
    [classData.constructor.description] on what [getClassData] returned.
    The [constructor] of a value inherited from [Object.prototype] is
    [Function] or [Object], which has neither property. *)
Definition readConstructorTitle (classData : JsLookup ClassDataMap.t)
  : Result (option string) :=
  match classData with
  | Own d => Ok (ConstructorData.title (ClassDataMap.constructor_ d))
  | Inherited _ => Ok None
  | Undefined => Throw (TypeError "Cannot read properties of undefined")
  end.

Definition readConstructorDescription (classData : JsLookup ClassDataMap.t)
  : Result (option string) :=
  match classData with
  | Own d => Ok (ConstructorData.description (ClassDataMap.constructor_ d))
  | Inherited _ => Ok None
  | Undefined => Throw (TypeError "Cannot read properties of undefined")
  end.

(** The registry of a reachable parser holds, under each name, the data
    of the class of that name. *)
Definition registry_ok (this : TsFileParser) : Prop :=
  NoDup (map fst (classesDataMap this)) /\
  forall k d,
    In (k, d) (classesDataMap this) ->
    inherited_key k = false /\
    exists c, find (name_is k) (sourceFile this) = Some c /\ d = classDataOf c.

(** Every entry of the member map [m] of class [c] is the record of a
    declaration, in [c] or an ancestor, whose scope is public or
    unspecified. *)
Definition only_public_members {D R : Type} (dname : D -> string)
    (dscope : D -> option Scope) (record : D -> R)
    (members : ClassDeclaration -> list D)
    (c : ClassDeclaration) (m : JsObject R) : Prop :=
  forall n r,
    In (n, r) m ->
    exists a d,
      In a (chainOf c) /\ In d (members a) /\ dname d = n
      /\ public_or_unspecified (dscope d) = true /\ r = record d.

(** The entries of [o] under the keys [ks], in the order of [ks]. *)
Definition entriesAt {V} (o : JsObject V) (ks : list string)
  : list (string * V) :=
  flat_map (fun k => match own_get o k with
                     | Some v => [(k, v)]
                     | None => []
                     end) ks.

(** The list line of an entry of a member map. *)
Definition entryLine {R} `{MemberRecord R} (e : string * R) : string :=
  printListItem (Some (member_title (snd e))) (member_description (snd e)).

(** The fragment [getApiClassContent] assembles from the data of a
    class. *)
Definition apiClassContentOf (localeCompare : string -> string -> Z)
    (classData : ClassDataMap.t) : string :=
  let ctor := ClassDataMap.constructor_ classData in
  printH3 (ClassDataMap.title classData)
  ++ printDescription (ClassDataMap.description classData)
  ++ printH4 "Constructor"
  ++ printListItem (ConstructorData.title ctor)
                   (ConstructorData.description ctor)
  ++ printMap localeCompare "Properties" (ClassDataMap.properties classData)
  ++ printMap localeCompare "Accessors" (ClassDataMap.accessors classData)
  ++ printMap localeCompare "Methods" (ClassDataMap.methods classData).

(** The text [writeApiClassContent] writes when it writes. *)
Definition updatedContentOf (data className content : string) : string :=
  slice data 0
    (indexOf data (startCommentOf className)
     + js_length (startCommentOf className))
  ++ nl ++ content
  ++ slice_from data (indexOf data (endCommentOf className)).

Definition insertedMessage (className : string) : string :=
  "Content for " ++ className ++ " inserted successfully.".

Definition notFoundMessage (className : string) : string :=
  "Start and/or end comments not found for " ++ className ++ " in the file.".

(** ** Further notions and examples *)

Definition exBar_n : PropertyDeclaration.t :=
  {| PropertyDeclaration.getText := "n;";
     PropertyDeclaration.getJsDocs := [];
     PropertyDeclaration.name := "n";
     PropertyDeclaration.type := None;
     PropertyDeclaration.scope := Some Public;
     PropertyDeclaration.isStatic := false |}.

Definition exBar_toString : MethodDeclaration.t :=
  {| MethodDeclaration.getText := "toString(): string;";
     MethodDeclaration.getJsDocs :=
       [ {| JSDoc.getCommentText := Some "Text form." |} ];
     MethodDeclaration.name := "toString";
     MethodDeclaration.returnType := Some "string";
     MethodDeclaration.scope := Some Public;
     MethodDeclaration.isStatic := false |}.

Definition exBar_Size : MethodDeclaration.t :=
  {| MethodDeclaration.getText := "Size(): number;";
     MethodDeclaration.getJsDocs :=
       [ {| JSDoc.getCommentText := Some "Same as size." |} ];
     MethodDeclaration.name := "Size";
     MethodDeclaration.returnType := Some "number";
     MethodDeclaration.scope := None;
     MethodDeclaration.isStatic := false |}.

(** [declare class Bar extends Base { constructor(n: number); public n;
    toString(): string; Size(): number }] *)
Definition exBar : ClassDeclaration :=
  {| getName := Some "Bar";
     getTypeParameters := [];
     getJsDocs := [ {| JSDoc.getCommentText := Some "A bar." |} ];
     getConstructors :=
       [ {| ConstructorDeclaration.getText := "constructor(n: number);";
            ConstructorDeclaration.getJsDocs :=
              [ {| JSDoc.getCommentText := Some "Creates a bar." |} ] |} ];
     getProperties := [exBar_n];
     getGetAccessors := [];
     getMethods := [exBar_toString; exBar_Size];
     getBaseClass := Some exBase |}.

(** How many reads and how many writes a list of effects holds. *)
Definition countReads (es : list Effect) : nat :=
  List.length
    (filter (fun e => match e with FsRead _ => true | _ => false end) es).

Definition countWrites (es : list Effect) : nat :=
  List.length
    (filter (fun e => match e with FsWrite _ _ => true | _ => false end) es).

(** Two keys between which the collation makes no difference. *)
Definition collateEqual (localeCompare : string -> string -> Z)
    (a b : string) : bool :=
  (localeCompare a b <=? 0) && (localeCompare b a <=? 0).

(** The script of [src/index.ts]: two awaited calls in sequence; a
    rejected first call leaves the second one unmade. *)
Definition main (localeCompare : string -> string -> Z) (st : State)
  : Result unit * State :=
  match writeApiClassContent localeCompare st "SinglyLinkedList" with
  | (Ok _, st1) => writeApiClassContent localeCompare st1 "DoublyLinkedList"
  | (Throw e, st1) => (Throw e, st1)
  end.

(** [updated] is [data] with only the text strictly between the start
    marker and the end marker of [className] replaced, by a line feed
    and [content]. *)
Definition replaces_only_between_markers
    (data className content updated : string) : Prop :=
  exists pre mid post,
    data = pre ++ startCommentOf className ++ mid
           ++ endCommentOf className ++ post
    /\ updated = pre ++ startCommentOf className ++ nl ++ content
                 ++ endCommentOf className ++ post.

(** A document in which the end marker of [Foo] comes before its start
    marker. *)
Definition exReversed : string :=
  endCommentOf "Foo" ++ startCommentOf "Foo".

(** [declare class toString { }], a class whose name is a key of
    [Object.prototype]. *)
Definition exToString : ClassDeclaration :=
  {| getName := Some "toString";
     getTypeParameters := [];
     getJsDocs := [ {| JSDoc.getCommentText := Some "Text helper." |} ];
     getConstructors := [];
     getProperties := [];
     getGetAccessors := [];
     getMethods := [];
     getBaseClass := None |}.
(** * Properties *)

(** ** Strings *)

Lemma append_assoc (a b c : string) : (a ++ b) ++ c = a ++ (b ++ c).
Proof. induction a as [|x a IH]; simpl; [reflexivity | now rewrite IH]. Qed.

Lemma append_empty_r (a : string) : a ++ "" = a.
Proof. induction a as [|x a IH]; simpl; [reflexivity | now rewrite IH]. Qed.

Lemma length_append (a b : string) :
  String.length (a ++ b) = (String.length a + String.length b)%nat.
Proof. induction a as [|x a IH]; simpl; [reflexivity | now rewrite IH]. Qed.

Lemma prefix_split (p s : string) :
  String.prefix p s = true -> exists rest, s = p ++ rest.
Proof.
  revert s; induction p as [|x p IH]; intros s H.
  - exists s; reflexivity.
  - destruct s as [|y s]; simpl in H; [discriminate|].
    destruct (ascii_dec x y) as [->|]; [|discriminate].
    destruct (IH _ H) as [rest ->]. exists rest; reflexivity.
Qed.

Lemma prefix_append (p rest : string) : String.prefix p (p ++ rest) = true.
Proof.
  induction p as [|x p IH]; simpl.
  - destruct rest; reflexivity.
  - destruct (ascii_dec x x); [exact IH | congruence].
Qed.

Lemma substring_whole_prefix (a b : string) :
  String.substring 0 (String.length a) (a ++ b) = a.
Proof.
  induction a as [|x a IH]; simpl.
  - destruct b; reflexivity.
  - now rewrite IH.
Qed.

Lemma substring_all (a : string) :
  String.substring 0 (String.length a) a = a.
Proof.
  rewrite <- (append_empty_r a) at 2. apply substring_whole_prefix.
Qed.

Lemma substring_skip_prefix (a b : string) (m : nat) :
  String.substring (String.length a) m (a ++ b) = String.substring 0 m b.
Proof. induction a as [|x a IH]; simpl; [reflexivity | exact IH]. Qed.

Lemma indexOf_from_cons (pat : string) (x : ascii) (data : string) (i : Z) :
  indexOf_from pat (String x data) i =
  if String.prefix pat (String x data) then i
  else indexOf_from pat data (i + 1).
Proof. reflexivity. Qed.

(** [indexOf] never answers a position before the one it started at,
    and a found position splits the text around the pattern. *)
Lemma indexOf_from_found (pat data : string) (i r : Z) :
  indexOf_from pat data i = r -> r <> -1 -> 0 <= i ->
  exists pre post,
    data = pre ++ pat ++ post /\ r = i + js_length pre.
Proof.
  revert i; induction data as [|x data IH]; intros i Hr Hne Hi.
  - destruct pat as [|y pat]; simpl in Hr; [|congruence].
    exists "", ""; split; [reflexivity | unfold js_length; simpl; lia].
  - rewrite indexOf_from_cons in Hr.
    destruct (String.prefix pat (String x data)) eqn:Hp.
    + destruct (prefix_split _ _ Hp) as [rest Hrest].
      exists "", rest; split; [exact Hrest | unfold js_length; simpl; lia].
    + destruct (IH (i + 1) Hr Hne ltac:(lia)) as (pre & post & Hd & Hlen).
      exists (String x pre), post; split.
      * simpl; now rewrite Hd.
      * unfold js_length in *; simpl String.length; lia.
Qed.

Lemma indexOf_found (data pat : string) :
  indexOf data pat <> -1 ->
  exists pre post,
    data = pre ++ pat ++ post /\ indexOf data pat = js_length pre.
Proof.
  intros H.
  destruct (indexOf_from_found pat data 0 _ eq_refl H ltac:(lia))
    as (pre & post & Hd & Hlen).
  exists pre, post; split; [exact Hd | exact Hlen].
Qed.

Lemma indexOf_from_range (pat data : string) (i : Z) :
  indexOf_from pat data i = -1 \/ i <= indexOf_from pat data i.
Proof.
  revert i; induction data as [|x data IH]; intros i.
  - simpl. destruct pat; [right; lia | left; reflexivity].
  - rewrite indexOf_from_cons.
    destruct (String.prefix pat (String x data)); [right; lia|].
    destruct (IH (i + 1)) as [H|H]; [left; exact H | right; lia].
Qed.

Lemma indexOf_range (data pat : string) :
  -1 <= indexOf data pat.
Proof.
  unfold indexOf. destruct (indexOf_from_range pat data 0); lia.
Qed.

(** The text before a position and the text from a position on. *)
Lemma slice_prefix (a b : string) :
  slice (a ++ b) 0 (js_length a) = a.
Proof.
  unfold slice, clamp_index, js_length.
  rewrite length_append.
  replace (0 <? 0) with false by reflexivity.
  destruct (Z.ltb_spec (Z.of_nat (String.length a)) 0); [lia|].
  rewrite Z.min_l, Z.min_l by lia.
  rewrite Z.sub_0_r, Nat2Z.id. change (Z.to_nat 0) with 0%nat.
  apply substring_whole_prefix.
Qed.

Lemma slice_from_suffix (a b : string) :
  slice_from (a ++ b) (js_length a) = b.
Proof.
  unfold slice_from, slice, clamp_index, js_length.
  rewrite length_append.
  destruct (Z.ltb_spec (Z.of_nat (String.length a)) 0); [lia|].
  destruct (Z.ltb_spec (Z.of_nat (String.length a + String.length b)) 0);
    [lia|].
  rewrite Z.min_l, Z.min_r by lia.
  rewrite Nat2Z.id.
  replace (Z.to_nat _) with (String.length b) by lia.
  rewrite substring_skip_prefix. apply substring_all.
Qed.

Lemma marker_length_positive (className : string) :
  0 < js_length (endCommentOf className).
Proof. unfold js_length, endCommentOf; simpl; lia. Qed.

(** ** Objects *)

Section ObjectFacts.
Context {V : Type}.
Implicit Types (o : JsObject V) (k : string) (v : V).

Lemma own_get_set_same o k v : own_get (js_set o k v) k = Some v.
Proof.
  induction o as [|[k' v'] o IH]; simpl.
  - now rewrite String.eqb_refl.
  - destruct (String.eqb k' k) eqn:E; simpl; rewrite E;
      [reflexivity | exact IH].
Qed.

Lemma own_get_set_other o k k' v :
  k <> k' -> own_get (js_set o k v) k' = own_get o k'.
Proof.
  intros Hne. induction o as [|[k0 v0] o IH]; simpl.
  - apply String.eqb_neq in Hne. now rewrite Hne.
  - destruct (String.eqb k0 k) eqn:E; simpl.
    + apply String.eqb_eq in E; subst k0.
      apply String.eqb_neq in Hne. now rewrite Hne.
    + destruct (String.eqb k0 k'); [reflexivity | exact IH].
Qed.

Lemma own_get_set o k k' v :
  own_get (js_set o k v) k' =
  if String.eqb k k' then Some v else own_get o k'.
Proof.
  destruct (String.eqb_spec k k') as [->|Hne].
  - apply own_get_set_same.
  - now apply own_get_set_other.
Qed.

Lemma js_set_fresh o k v :
  own_get o k = None -> js_set o k v = (o ++ [(k, v)])%list.
Proof.
  induction o as [|[k' v'] o IH]; simpl; intros H; [reflexivity|].
  destruct (String.eqb k' k); [discriminate | now rewrite IH].
Qed.

Lemma own_get_In o k v : own_get o k = Some v -> In (k, v) o.
Proof.
  induction o as [|[k' v'] o IH]; simpl; intros H; [discriminate|].
  destruct (String.eqb_spec k' k) as [->|].
  - injection H as ->. now left.
  - right; now apply IH.
Qed.

Lemma own_get_None o k : own_get o k = None <-> ~ In k (map fst o).
Proof.
  induction o as [|[k' v'] o IH]; simpl.
  - tauto.
  - destruct (String.eqb_spec k' k) as [->|Hne].
    + split; [discriminate | tauto].
    + rewrite IH. tauto.
Qed.

Lemma own_get_key o k :
  In k (map fst o) -> exists v, own_get o k = Some v.
Proof.
  intros Hin. destruct (own_get o k) as [v|] eqn:E; [now exists v|].
  apply own_get_None in E. contradiction.
Qed.

Lemma In_own_get o k v :
  NoDup (map fst o) -> In (k, v) o -> own_get o k = Some v.
Proof.
  induction o as [|[k' v'] o IH]; simpl; intros Hnd Hin; [contradiction|].
  inversion Hnd as [|? ? Hnotin Hnd']; subst.
  destruct Hin as [Heq|Hin].
  - injection Heq as -> ->. now rewrite String.eqb_refl.
  - destruct (String.eqb_spec k' k) as [->|].
    + exfalso. apply Hnotin. now apply (in_map fst) in Hin.
    + now apply IH.
Qed.

Lemma In_js_set o k v k' v' :
  In (k', v') (js_set o k v) -> In (k', v') o \/ (k', v') = (k, v).
Proof.
  induction o as [|[k0 v0] o IH]; simpl.
  - intros [H|[]]; right; now symmetry.
  - destruct (String.eqb_spec k0 k) as [->|]; simpl.
    + intros [H|H]; [right; now symmetry | left; now right].
    + intros [H|H]; [left; now left|].
      destruct (IH H) as [H'|H']; [left; now right | now right].
Qed.

Lemma js_get_own o k v : own_get o k = Some v -> js_get o k = Own v.
Proof. unfold js_get; now intros ->. Qed.

Lemma js_get_falsy o k :
  truthy (js_get o k) = false ->
  own_get o k = None /\ inherited_key k = false.
Proof.
  unfold js_get. destruct (own_get o k); [discriminate|].
  destruct (inherited_key k); [discriminate | now split].
Qed.

Lemma js_get_set_same o k v : js_get (js_set o k v) k = Own v.
Proof. apply js_get_own, own_get_set_same. Qed.
End ObjectFacts.

(** ** Sorting *)

Section SortFacts.
Context {A : Type} (le : A -> A -> bool).

Lemma insert_sorted_perm (x : A) (l : list A) :
  Permutation (insert_sorted le x l) (x :: l).
Proof.
  induction l as [|y l IH]; simpl; [reflexivity|].
  destruct (le x y); [reflexivity|].
  rewrite IH. apply perm_swap.
Qed.

Lemma stable_sort_perm (l : list A) : Permutation (stable_sort le l) l.
Proof.
  induction l as [|x l IH]; simpl; [reflexivity|].
  rewrite insert_sorted_perm. now constructor.
Qed.

Hypothesis le_total : forall a b, le a b = true \/ le b a = true.
Hypothesis le_trans :
  forall a b c, le a b = true -> le b c = true -> le a c = true.

Lemma insert_sorted_ordered (x : A) (l : list A) :
  StronglySorted (fun a b => le a b = true) l ->
  StronglySorted (fun a b => le a b = true) (insert_sorted le x l).
Proof.
  induction 1 as [|y l Hs IH Hall]; simpl.
  - constructor; constructor.
  - destruct (le x y) eqn:E.
    + constructor; [now constructor|].
      constructor; [exact E|].
      eapply Forall_impl; [|exact Hall].
      intros z Hz. exact (le_trans _ _ _ E Hz).
    + constructor; [exact IH|].
      assert (Hyx : le y x = true)
        by (destruct (le_total x y) as [H|H]; [congruence | exact H]).
      eapply Permutation_Forall; [symmetry; apply insert_sorted_perm|].
      now constructor.
Qed.

Lemma stable_sort_ordered (l : list A) :
  StronglySorted (fun a b => le a b = true) (stable_sort le l).
Proof.
  induction l as [|x l IH]; simpl; [constructor|].
  now apply insert_sorted_ordered.
Qed.
End SortFacts.

Lemma Object_keys_perm {V} (o : JsObject V) :
  Permutation (Object_keys o) (map fst o).
Proof.
  unfold Object_keys. rewrite stable_sort_perm.
  induction (map fst o) as [|k ks IH]; simpl; [reflexivity|].
  destruct (is_array_index k); simpl.
  - now constructor.
  - rewrite <- Permutation_middle. now constructor.
Qed.

(** Every key that [Object.keys] lists is an own property. *)
Lemma Object_keys_own {V} (o : JsObject V) (k : string) :
  In k (Object_keys o) -> exists v, js_get o k = Own v.
Proof.
  intros Hin.
  apply (Permutation_in _ (Object_keys_perm o)) in Hin.
  destruct (own_get_key o k Hin) as [v Hv].
  exists v. now apply js_get_own.
Qed.

Lemma Object_keys_nil {V} (o : JsObject V) : Object_keys o = [] <-> o = [].
Proof.
  split; [|now intros ->].
  intros H. pose proof (Object_keys_perm o) as P. rewrite H in P.
  apply Permutation_nil in P. now destruct o.
Qed.

(** ** The walk up the base classes *)

Lemma getPublicProperties_chain (c : ClassDeclaration) (map : PropertiesMap) :
  getPublicProperties c map =
  fold_left propertiesReduceFn (flat_map getProperties (chainOf c)) map.
Proof.
  revert map; induction c as [c IH] using ClassDeclaration_chain_ind;
    intros map.
  destruct c as [n tp docs ctors ps gs ms [b|]]; simpl in *.
  - rewrite fold_left_app. now apply IH.
  - now rewrite app_nil_r.
Qed.

Lemma getPublicAccessors_chain (c : ClassDeclaration) (map : AccessorsMap) :
  getPublicAccessors c map =
  fold_left accessorsReduceFn (flat_map getGetAccessors (chainOf c)) map.
Proof.
  revert map; induction c as [c IH] using ClassDeclaration_chain_ind;
    intros map.
  destruct c as [n tp docs ctors ps gs ms [b|]]; simpl in *.
  - rewrite fold_left_app. now apply IH.
  - now rewrite app_nil_r.
Qed.

Lemma getPublicMethods_chain (c : ClassDeclaration) (map : MethodsMap) :
  getPublicMethods c map =
  fold_left methodsReduceFn (flat_map getMethods (chainOf c)) map.
Proof.
  revert map; induction c as [c IH] using ClassDeclaration_chain_ind;
    intros map.
  destruct c as [n tp docs ctors ps gs ms [b|]]; simpl in *.
  - rewrite fold_left_app. now apply IH.
  - now rewrite app_nil_r.
Qed.

Lemma chainOf_head (c : ClassDeclaration) :
  exists rest, chainOf c = c :: rest.
Proof. destruct c as [n tp docs ctors ps gs ms b]; simpl; eauto. Qed.

(** ** The reducers *)

Section ReduceFacts.
Context {D R : Type}.
Variable dname : D -> string.
Variable dscope : D -> option Scope.
Variable record : D -> R.

Lemma reduce_own_get (ds : list D) (acc : JsObject R) (n : string) :
  own_get (fold_left (reduceFn dname dscope record) ds acc) n =
  match own_get acc n with
  | Some r => Some r
  | None =>
      if inherited_key n then None
      else option_map record (find (declares dname dscope n) ds)
  end.
Proof.
  revert acc; induction ds as [|d ds IH]; intros acc; simpl.
  - destruct (own_get acc n); [reflexivity|].
    now destruct (inherited_key n).
  - rewrite IH. unfold reduceFn, declares.
    destruct (truthy (js_get acc (dname d))) eqn:Ht; simpl.
    + destruct (String.eqb_spec (dname d) n) as [<-|Hne]; simpl;
        [|reflexivity].
      destruct (own_get acc (dname d)) eqn:Eo; [reflexivity|].
      unfold js_get in Ht. rewrite Eo in Ht.
      destruct (inherited_key (dname d)); [reflexivity | discriminate].
    + apply js_get_falsy in Ht as [Hown Hinh].
      destruct (public_or_unspecified (dscope d)) eqn:Hp; simpl.
      * rewrite own_get_set.
        destruct (String.eqb_spec (dname d) n) as [<-|Hne]; simpl.
        -- now rewrite Hown, Hinh.
        -- reflexivity.
      * now rewrite andb_false_r.
Qed.

Lemma reduce_NoDup (ds : list D) (acc : JsObject R) :
  NoDup (map fst acc) ->
  NoDup (map fst (fold_left (reduceFn dname dscope record) ds acc)).
Proof.
  revert acc; induction ds as [|d ds IH]; intros acc Hnd; simpl;
    [exact Hnd|].
  apply IH. unfold reduceFn.
  destruct (truthy (js_get acc (dname d))) eqn:Ht; simpl; [exact Hnd|].
  destruct (public_or_unspecified (dscope d)); [|exact Hnd].
  apply js_get_falsy in Ht as [Hown _].
  rewrite (js_set_fresh _ _ _ Hown), map_app; simpl.
  apply NoDup_app; [exact Hnd | repeat constructor; intros [] |].
  intros k Hk [<-|[]]. now apply own_get_None in Hown.
Qed.

Lemma reduce_provenance (ds : list D) (acc : JsObject R) (n : string) (r : R) :
  In (n, r) (fold_left (reduceFn dname dscope record) ds acc) ->
  In (n, r) acc \/
  exists d, In d ds /\ dname d = n
            /\ public_or_unspecified (dscope d) = true /\ r = record d.
Proof.
  revert acc; induction ds as [|d ds IH]; intros acc Hin; simpl in *;
    [now left|].
  destruct (IH _ Hin) as [Hacc|(d' & Hd' & Hrest)];
    [|right; exists d'; split; [now right | exact Hrest]].
  unfold reduceFn in Hacc.
  destruct (negb (truthy (js_get acc (dname d)))
            && public_or_unspecified (dscope d)) eqn:G; [|now left].
  apply andb_true_iff in G as [_ Hpub].
  destruct (In_js_set _ _ _ _ _ Hacc) as [H|H]; [now left|].
  injection H as Hn Hr. right. exists d.
  repeat split; [now left | now symmetry | exact Hpub | exact Hr].
Qed.
End ReduceFacts.

Lemma propertiesReduceFn_generic :
  propertiesReduceFn =
  reduceFn PropertyDeclaration.name PropertyDeclaration.scope propertyRecord.
Proof. reflexivity. Qed.

Lemma accessorsReduceFn_generic :
  accessorsReduceFn =
  reduceFn GetAccessorDeclaration.name GetAccessorDeclaration.scope
    accessorRecord.
Proof. reflexivity. Qed.

Lemma methodsReduceFn_generic :
  methodsReduceFn =
  reduceFn MethodDeclaration.name MethodDeclaration.scope methodRecord.
Proof. reflexivity. Qed.

(** ** The registry *)

Lemma name_is_true (className : string) (c : ClassDeclaration) :
  name_is className c = true -> getName c = Some className.
Proof.
  unfold name_is. destruct (getName c) as [n|]; [|discriminate].
  intros H. apply String.eqb_eq in H. now subst.
Qed.

Lemma getClassData_memo (this : TsFileParser) (className : string) :
  truthy (js_get (classesDataMap this) className) = true ->
  getClassData this className =
  (Ok (js_get (classesDataMap this) className), this).
Proof. unfold getClassData. now intros ->. Qed.

Lemma getClassData_fresh (this : TsFileParser) (className : string)
    (c : ClassDeclaration) :
  truthy (js_get (classesDataMap this) className) = false ->
  find (name_is className) (sourceFile this) = Some c ->
  getClassData this className =
  (Ok (Own (classDataOf c)),
   {| sourceFile := sourceFile this;
      classesDataMap :=
        js_set (classesDataMap this) className (classDataOf c) |}).
Proof.
  intros Ht Hf. unfold getClassData, setClassData. rewrite Ht, Hf. simpl.
  apply find_some in Hf as [_ Hn]. rewrite (name_is_true _ _ Hn). simpl.
  now rewrite js_get_set_same.
Qed.

Lemma getClassData_missing (this : TsFileParser) (className : string) :
  truthy (js_get (classesDataMap this) className) = false ->
  find (name_is className) (sourceFile this) = None ->
  getClassData this className = (Throw (Error "className not found!"), this).
Proof.
  intros Ht Hf. unfold getClassData, setClassData. now rewrite Ht, Hf.
Qed.

(** The three ways a call can go. *)
Lemma getClassData_cases (this : TsFileParser) (className : string) :
  (truthy (js_get (classesDataMap this) className) = true /\
   getClassData this className =
   (Ok (js_get (classesDataMap this) className), this))
  \/ (exists c,
        truthy (js_get (classesDataMap this) className) = false /\
        find (name_is className) (sourceFile this) = Some c /\
        getClassData this className =
        (Ok (Own (classDataOf c)),
         {| sourceFile := sourceFile this;
            classesDataMap :=
              js_set (classesDataMap this) className (classDataOf c) |}))
  \/ (truthy (js_get (classesDataMap this) className) = false /\
      find (name_is className) (sourceFile this) = None /\
      getClassData this className =
      (Throw (Error "className not found!"), this)).
Proof.
  destruct (truthy (js_get (classesDataMap this) className)) eqn:Ht.
  - left. split; [reflexivity | now apply getClassData_memo].
  - right.
    destruct (find (name_is className) (sourceFile this)) as [c|] eqn:Hf.
    + left. exists c. repeat split. now apply getClassData_fresh.
    + right. repeat split. now apply getClassData_missing.
Qed.

Lemma getClassData_sourceFile (this : TsFileParser) (className : string)
    (r : Result (JsLookup ClassDataMap.t)) (this' : TsFileParser) :
  getClassData this className = (r, this') ->
  sourceFile this' = sourceFile this.
Proof.
  intros H.
  destruct (getClassData_cases this className)
    as [[_ E]|[(c & _ & _ & E)|(_ & _ & E)]];
    rewrite E in H; injection H as _ <-; reflexivity.
Qed.

Lemma registry_ok_call (this : TsFileParser) (className : string)
    (r : Result (JsLookup ClassDataMap.t)) (this' : TsFileParser) :
  registry_ok this ->
  getClassData this className = (r, this') ->
  registry_ok this'.
Proof.
  intros [Hnd Hreg] H.
  destruct (getClassData_cases this className)
    as [[_ E]|[(c & Ht & Hf & E)|(_ & _ & E)]];
    rewrite E in H; injection H as _ <-; try (split; assumption).
  apply js_get_falsy in Ht as [Hown Hinh].
  unfold registry_ok; simpl. rewrite (js_set_fresh _ _ _ Hown). split.
  - rewrite map_app; simpl.
    apply NoDup_app; [exact Hnd | repeat constructor; intros [] |].
    intros k Hk [<-|[]]. now apply own_get_None in Hown.
  - intros k d Hin. apply in_app_or in Hin as [Hin|[Heq|[]]].
    + now apply Hreg.
    + injection Heq as <- <-. split; [exact Hinh | now exists c].
Qed.

Lemma reachable_registry_ok (this : TsFileParser) :
  reachable this -> registry_ok this.
Proof.
  induction 1 as [classes|this cn r this' _ IH H].
  - split; simpl; [constructor | intros k d []].
  - exact (registry_ok_call _ _ _ _ IH H).
Qed.

(** What a call returns on a reachable parser, for a name the source
    file declares. *)
Lemma getClassData_declared (this : TsFileParser) (className : string)
    (c : ClassDeclaration) :
  registry_ok this ->
  find (name_is className) (sourceFile this) = Some c ->
  exists this',
    getClassData this className =
    (Ok (if inherited_key className then Inherited className
         else Own (classDataOf c)), this').
Proof.
  intros [Hnd Hreg] Hf.
  destruct (getClassData_cases this className)
    as [[Ht E]|[(c' & Ht & Hf' & E)|(_ & Hf' & _)]].
  - exists this. rewrite E. f_equal. f_equal.
    unfold js_get in *.
    destruct (own_get (classesDataMap this) className) as [d|] eqn:Eo.
    + apply own_get_In in Eo.
      destruct (Hreg _ _ Eo) as (Hinh & c' & Hf' & ->).
      rewrite Hinh. congruence.
    + destruct (inherited_key className); [reflexivity | discriminate].
  - eexists. rewrite E.
    apply js_get_falsy in Ht as [_ ->].
    replace c' with c by congruence. reflexivity.
  - congruence.
Qed.

(** What a call does on a reachable parser, for a name the source file
    does not declare and that is not inherited from [Object.prototype]. *)
Lemma getClassData_undeclared (this : TsFileParser) (className : string) :
  registry_ok this ->
  find (name_is className) (sourceFile this) = None ->
  inherited_key className = false ->
  getClassData this className = (Throw (Error "className not found!"), this).
Proof.
  intros [Hnd Hreg] Hf Hinh. apply getClassData_missing; [|exact Hf].
  unfold js_get.
  destruct (own_get (classesDataMap this) className) as [d|] eqn:Eo.
  - apply own_get_In in Eo.
    destruct (Hreg _ _ Eo) as (_ & c & Hf' & _). congruence.
  - now rewrite Hinh.
Qed.

(** ** Memoization *)

(** What memoization gives for a declared name that is not inherited
    from [Object.prototype]: on a reachable parser the call returns the
    data of the class and leaves it stored under the name; a second
    call returns the same data and leaves the parser as it is; and it
    does so whatever the source file then holds. *)
Lemma getClassData_memoizes
    (this : TsFileParser) (className : string) (c : ClassDeclaration) :
  reachable this ->
  find (name_is className) (sourceFile this) = Some c ->
  inherited_key className = false ->
  exists this',
    getClassData this className = (Ok (Own (classDataOf c)), this')
    /\ own_get (classesDataMap this') className = Some (classDataOf c)
    /\ getClassData this' className = (Ok (Own (classDataOf c)), this')
    /\ forall classes',
         let other :=
           {| sourceFile := classes';
              classesDataMap := classesDataMap this' |} in
         getClassData other className = (Ok (Own (classDataOf c)), other).
Proof.
  intros Hr Hf Hinh.
  destruct (getClassData_declared this className c
              (reachable_registry_ok _ Hr) Hf) as [this' E].
  rewrite Hinh in E. exists this'. split; [exact E|].
  assert (Hown : own_get (classesDataMap this') className
                 = Some (classDataOf c)).
  { destruct (getClassData_cases this className)
      as [[Ht E']|[(c' & Ht & Hf' & E')|(_ & _ & E')]];
      rewrite E' in E; [| |discriminate].
    - pose proof (f_equal snd E) as Hs. simpl in Hs. subst this'.
      pose proof (f_equal fst E) as Hg. simpl in Hg.
      unfold js_get in Hg.
      destruct (own_get (classesDataMap this) className) as [d|];
        [congruence|].
      destruct (inherited_key className); discriminate.
    - pose proof (f_equal snd E) as Hs. simpl in Hs. subst this'.
      replace c' with c by congruence.
      simpl. now rewrite own_get_set_same. }
  split; [exact Hown|].
  assert (Hmemo : forall classes',
             getClassData
               {| sourceFile := classes';
                  classesDataMap := classesDataMap this' |} className
             = (Ok (Own (classDataOf c)),
                {| sourceFile := classes';
                   classesDataMap := classesDataMap this' |})).
  { intros classes'. rewrite getClassData_memo; simpl;
      now rewrite (js_get_own _ _ _ Hown). }
  split; [|exact Hmemo].
  specialize (Hmemo (sourceFile this')). now destruct this'.
Qed.

(** C4, at the declared class [toString]: the registry [{}] inherits a
    property of that name from [Object.prototype], so the guard of
    [getClassData] is false from the first call on.  The call returns
    the inherited value, not the data of the class, and stores no entry:
    there is no stored registry entry for a second call to return. *)
Theorem getClassData_inherited_name_not_memoized :
  find (name_is "toString") [exToString] = Some exToString
  /\ getClassData (newTsFileParser [exToString]) "toString"
     = (Ok (Inherited "toString"), newTsFileParser [exToString])
  /\ fst (getClassData (newTsFileParser [exToString]) "toString")
     <> Ok (Own (classDataOf exToString))
  /\ own_get
       (classesDataMap
          (snd (getClassData (newTsFileParser [exToString]) "toString")))
       "toString" = None
  /\ classesDataMap
       (snd (getClassData
               (snd (getClassData (newTsFileParser [exToString]) "toString"))
               "toString")) = [].
Proof.
  split; [reflexivity|]. split; [reflexivity|].
  split; [discriminate|]. split; reflexivity.
Qed.

(** ** Lookup failure *)

(** C5, at the class name ["toString"], which [exClasses] does not
    declare: the registry [{}] inherits a property of that name from
    [Object.prototype], so the guard [!this.classesDataMap[className]]
    is false, [setClassData] is not called, nothing is thrown and the
    inherited value is returned.  The writer then fails on it with a
    [TypeError]. *)
Theorem getClassData_inherited_name_returns :
  find (name_is "toString") exClasses = None
  /\ getClassData (newTsFileParser exClasses) "toString" =
     (Ok (Inherited "toString"), newTsFileParser exClasses)
  /\ fst (getApiClassContent baseCompare (newTsFileParser exClasses)
            "toString")
     = Throw (TypeError "Cannot convert undefined or null to object").
Proof. repeat split. Qed.

(** For every other name without declaration the error is thrown and
    the parser is left as it was. *)
Lemma getClassData_not_found (this : TsFileParser) (className : string) :
  reachable this ->
  find (name_is className) (sourceFile this) = None ->
  inherited_key className = false ->
  getClassData this className = (Throw (Error "className not found!"), this).
Proof.
  intros Hr. apply getClassData_undeclared. now apply reachable_registry_ok.
Qed.

(** ** Classes without constructor *)

(** C9: for a class without constructor, [getClassData] returns without
    throwing, and both [constructor.title] and [constructor.description]
    of what it returns are [undefined]; for a name that is not inherited
    from [Object.prototype] the returned value is the data of the
    class. *)
Theorem getClassData_without_constructor
    (this : TsFileParser) (className : string) (c : ClassDeclaration) :
  reachable this ->
  find (name_is className) (sourceFile this) = Some c ->
  getConstructors c = [] ->
  exists v this',
    getClassData this className = (Ok v, this') /\
    readConstructorTitle v = Ok None /\
    readConstructorDescription v = Ok None /\
    (inherited_key className = false -> v = Own (classDataOf c)).
Proof.
  intros Hr Hf Hc.
  destruct (getClassData_declared this className c
              (reachable_registry_ok _ Hr) Hf) as [this' E].
  eexists _, this'. split; [exact E|].
  destruct (inherited_key className); simpl.
  - repeat split. discriminate.
  - rewrite Hc. repeat split.
Qed.

Lemma getClassData_without_constructor_witness :
  exists v this',
    getClassData (newTsFileParser exClasses) "Foo" = (Ok v, this') /\
    readConstructorTitle v = Ok None /\
    readConstructorDescription v = Ok None /\
    (inherited_key "Foo" = false -> v = Own (classDataOf exFoo)).
Proof.
  apply (getClassData_without_constructor
           (newTsFileParser exClasses) "Foo" exFoo).
  - apply reachable_new.
  - reflexivity.
  - reflexivity.
Defined.

(** ** Member maps *)

Lemma find_app_found {A} (f : A -> bool) (l l' : list A) (x : A) :
  find f l = Some x -> find f (l ++ l') = Some x.
Proof.
  induction l as [|y l IH]; simpl; [discriminate|].
  destruct (f y); [trivial | exact IH].
Qed.

Section CollectFacts.
Context {D R : Type}.
Variable dname : D -> string.
Variable dscope : D -> option Scope.
Variable record : D -> R.
Variable members : ClassDeclaration -> list D.

(** A name that is not inherited is bound to the first declaration of
    that name with public or unspecified scope, the class's
    declarations coming before those of its ancestors. *)
Lemma collected_lookup (c : ClassDeclaration) (n : string) :
  inherited_key n = false ->
  js_get (collected dname dscope record members c) n =
  match find (declares dname dscope n) (flat_map members (chainOf c)) with
  | Some d => Own (record d)
  | None => Undefined
  end.
Proof.
  intros Hinh. unfold js_get, collected.
  rewrite reduce_own_get. simpl. rewrite Hinh.
  now destruct (find _ _).
Qed.

Lemma collected_own (c : ClassDeclaration) (n : string) (d : D) :
  inherited_key n = false ->
  find (declares dname dscope n) (members c) = Some d ->
  js_get (collected dname dscope record members c) n = Own (record d) /\
  count_occ string_dec
    (Object_keys (collected dname dscope record members c)) n = 1%nat.
Proof.
  intros Hinh Hf.
  assert (Hget : js_get (collected dname dscope record members c) n
                 = Own (record d)).
  { rewrite collected_lookup by exact Hinh.
    destruct (chainOf_head c) as [rest ->]. simpl.
    now rewrite (find_app_found _ _ _ _ Hf). }
  split; [exact Hget|].
  apply NoDup_count_occ'.
  - apply (Permutation_NoDup (Permutation_sym (Object_keys_perm _))).
    unfold collected. apply reduce_NoDup. constructor.
  - apply (Permutation_in _ (Permutation_sym (Object_keys_perm _))).
    unfold js_get in Hget.
    destruct (own_get (collected dname dscope record members c) n)
      as [r|] eqn:Eo.
    + apply own_get_In in Eo. now apply (in_map fst) in Eo.
    + destruct (inherited_key n); discriminate.
Qed.

Lemma collected_provenance (c : ClassDeclaration) (n : string) (r : R) :
  In (n, r) (collected dname dscope record members c) ->
  exists a d,
    In a (chainOf c) /\ In d (members a) /\ dname d = n
    /\ public_or_unspecified (dscope d) = true /\ r = record d.
Proof.
  intros Hin. unfold collected in Hin.
  apply reduce_provenance in Hin as [[]|(d & Hd & Hrest)].
  apply in_flat_map in Hd as (a & Ha & Hd).
  exists a, d. split; [exact Ha | split; [exact Hd | exact Hrest]].
Qed.
End CollectFacts.

Lemma getPublicProperties_collected (c : ClassDeclaration) :
  getPublicProperties c [] =
  collected PropertyDeclaration.name PropertyDeclaration.scope propertyRecord
    getProperties c.
Proof. apply getPublicProperties_chain. Qed.

Lemma getPublicAccessors_collected (c : ClassDeclaration) :
  getPublicAccessors c [] =
  collected GetAccessorDeclaration.name GetAccessorDeclaration.scope
    accessorRecord getGetAccessors c.
Proof. apply getPublicAccessors_chain. Qed.

Lemma getPublicMethods_collected (c : ClassDeclaration) :
  getPublicMethods c [] =
  collected MethodDeclaration.name MethodDeclaration.scope methodRecord
    getMethods c.
Proof. apply getPublicMethods_chain. Qed.

(** C3 as it is stated, for properties: a name declared in the class and
    in an ancestor is bound, exactly once, to a record of the class.  It
    fails for [Foo] and ["x"]: both [Foo] and [Base] declare [x] as
    protected, and the map of [Foo] has no key ["x"] at all. *)
Lemma shadowing_as_stated_fails :
  ~ (forall (c : ClassDeclaration) (n : string),
        (exists p, In p (getProperties c) /\ PropertyDeclaration.name p = n) ->
        (exists a p, In a (tl (chainOf c)) /\ In p (getProperties a)
                     /\ PropertyDeclaration.name p = n) ->
        exists p,
          In p (getProperties c) /\ PropertyDeclaration.name p = n
          /\ js_get (getPublicProperties c []) n = Own (propertyRecord p)
          /\ count_occ string_dec (Object_keys (getPublicProperties c [])) n
             = 1%nat).
Proof.
  intros H.
  destruct (H exFoo "x") as (p & _ & _ & Hget & _).
  - exists exFoo_x. split; [now left | reflexivity].
  - exists exBase, exBase_x. repeat split; now left.
  - vm_compute in Hget. discriminate.
Qed.

(** C3, amended: for a name that is not inherited from
    [Object.prototype], if the class itself declares a member of that
    name with public or unspecified scope, then the merged map binds the
    name, exactly once, to the record of the first such declaration of
    the class, whatever the ancestors declare.  This holds for
    properties, accessors and methods. *)
Theorem subclass_member_shadows_ancestors (c : ClassDeclaration) (n : string) :
  inherited_key n = false ->
  (forall p,
      find (declares PropertyDeclaration.name PropertyDeclaration.scope n)
        (getProperties c) = Some p ->
      js_get (getPublicProperties c []) n = Own (propertyRecord p)
      /\ count_occ string_dec (Object_keys (getPublicProperties c [])) n
         = 1%nat)
  /\ (forall g,
         find (declares GetAccessorDeclaration.name
                 GetAccessorDeclaration.scope n)
           (getGetAccessors c) = Some g ->
         js_get (getPublicAccessors c []) n = Own (accessorRecord g)
         /\ count_occ string_dec (Object_keys (getPublicAccessors c [])) n
            = 1%nat)
  /\ (forall m,
         find (declares MethodDeclaration.name MethodDeclaration.scope n)
           (getMethods c) = Some m ->
         js_get (getPublicMethods c []) n = Own (methodRecord m)
         /\ count_occ string_dec (Object_keys (getPublicMethods c [])) n
            = 1%nat).
Proof.
  intros Hinh. repeat split.
  - rewrite getPublicProperties_collected. now apply collected_own.
  - rewrite getPublicProperties_collected.
    now apply (collected_own _ _ _ _ c n p).
  - rewrite getPublicAccessors_collected. now apply collected_own.
  - rewrite getPublicAccessors_collected.
    now apply (collected_own _ _ _ _ c n g).
  - rewrite getPublicMethods_collected. now apply collected_own.
  - rewrite getPublicMethods_collected.
    now apply (collected_own _ _ _ _ c n m).
Qed.

Lemma subclass_member_shadows_ancestors_witness :
  js_get (getPublicProperties exFoo []) "y" = Own (propertyRecord exFoo_y)
  /\ count_occ string_dec (Object_keys (getPublicProperties exFoo [])) "y"
     = 1%nat.
Proof.
  apply (proj1 (subclass_member_shadows_ancestors exFoo "y" eq_refl) exFoo_y).
  reflexivity.
Defined.

(** The general rule behind it: a name that is not inherited is bound to
    the first public declaration met on the way up the chain. *)
Lemma getPublicProperties_lookup (c : ClassDeclaration) (n : string) :
  inherited_key n = false ->
  js_get (getPublicProperties c []) n =
  match find (declares PropertyDeclaration.name PropertyDeclaration.scope n)
          (flat_map getProperties (chainOf c)) with
  | Some p => Own (propertyRecord p)
  | None => Undefined
  end.
Proof.
  intros Hinh. rewrite getPublicProperties_collected.
  now apply collected_lookup.
Qed.

(** C8: in every entry of the registry of a reachable parser, the maps
    of properties, accessors and methods hold only records of
    declarations, of the class or of an ancestor, whose scope is public
    or unspecified; a declaration with scope private or protected
    contributes no entry. *)
Theorem member_maps_only_public (this : TsFileParser) (k : string)
    (d : ClassDataMap.t) :
  reachable this ->
  In (k, d) (classesDataMap this) ->
  exists c,
    find (name_is k) (sourceFile this) = Some c
    /\ only_public_members PropertyDeclaration.name PropertyDeclaration.scope
         propertyRecord getProperties c (ClassDataMap.properties d)
    /\ only_public_members GetAccessorDeclaration.name
         GetAccessorDeclaration.scope accessorRecord getGetAccessors c
         (ClassDataMap.accessors d)
    /\ only_public_members MethodDeclaration.name MethodDeclaration.scope
         methodRecord getMethods c (ClassDataMap.methods d).
Proof.
  intros Hr Hin.
  destruct (reachable_registry_ok _ Hr) as [_ Hreg].
  destruct (Hreg _ _ Hin) as (_ & c & Hf & ->).
  exists c. split; [exact Hf|]. simpl. repeat split; intros n r Hnr.
  - rewrite getPublicProperties_collected in Hnr.
    now apply collected_provenance in Hnr.
  - rewrite getPublicAccessors_collected in Hnr.
    now apply collected_provenance in Hnr.
  - rewrite getPublicMethods_collected in Hnr.
    now apply collected_provenance in Hnr.
Qed.

Lemma member_maps_only_public_witness :
  exists c,
    find (name_is "Foo") exClasses = Some c
    /\ only_public_members PropertyDeclaration.name PropertyDeclaration.scope
         propertyRecord getProperties c
         (ClassDataMap.properties (classDataOf exFoo))
    /\ only_public_members GetAccessorDeclaration.name
         GetAccessorDeclaration.scope accessorRecord getGetAccessors c
         (ClassDataMap.accessors (classDataOf exFoo))
    /\ only_public_members MethodDeclaration.name MethodDeclaration.scope
         methodRecord getMethods c
         (ClassDataMap.methods (classDataOf exFoo)).
Proof.
  apply (member_maps_only_public
           (snd (getClassData (newTsFileParser exClasses) "Foo"))
           "Foo" (classDataOf exFoo)).
  - apply (reachable_call (newTsFileParser exClasses) "Foo"
             (Ok (Own (classDataOf exFoo)))).
    + apply reachable_new.
    + reflexivity.
  - simpl. left. reflexivity.
Defined.

(** ** Rendering a member map *)

Lemma StronglySorted_map_inv {A B} (g : A -> B) (P : B -> B -> Prop)
    (l : list A) :
  StronglySorted P (map g l) -> StronglySorted (fun x y => P (g x) (g y)) l.
Proof.
  induction l as [|x l IH]; simpl; intros Hs; [constructor|].
  inversion Hs as [|? ? Hs' Hall]; subst.
  constructor; [now apply IH|].
  rewrite Forall_map in Hall. exact Hall.
Qed.

Lemma StronglySorted_weaken {A} (P Q : A -> A -> Prop) (l : list A) :
  (forall a b, P a b -> Q a b) -> StronglySorted P l -> StronglySorted Q l.
Proof.
  intros HPQ. induction 1 as [|x l Hs IH Hall]; constructor; [exact IH|].
  eapply Forall_impl; [|exact Hall]. intros b. apply HPQ.
Qed.

Lemma entriesAt_all {V} (o l : JsObject V) :
  NoDup (map fst o) -> incl l o -> entriesAt o (map fst l) = l.
Proof.
  intros Hnd. induction l as [|[k v] l IH]; intros Hincl; [reflexivity|].
  unfold entriesAt in *. simpl.
  rewrite (In_own_get o k v Hnd) by (apply Hincl; now left). simpl.
  f_equal. apply IH. intros e He. apply Hincl. now right.
Qed.

Lemma entriesAt_keys {V} (o : JsObject V) (ks : list string) :
  (forall k, In k ks -> In k (map fst o)) ->
  map fst (entriesAt o ks) = ks.
Proof.
  induction ks as [|k ks IH]; intros Hown; [reflexivity|].
  unfold entriesAt in *. simpl.
  destruct (own_get_key o k (Hown k (or_introl eq_refl))) as [v ->]. simpl.
  f_equal. apply IH. intros k' Hk'. apply Hown. now right.
Qed.

Lemma printKey_entries {R} `{MemberRecord R} (o : JsObject R)
    (ks : list string) :
  (forall k, In k ks -> In k (map fst o)) ->
  map (printKey o) ks = map entryLine (entriesAt o ks).
Proof.
  induction ks as [|k ks IH]; intros Hown; [reflexivity|].
  unfold entriesAt in *. simpl.
  destruct (own_get_key o k (Hown k (or_introl eq_refl))) as [v Hv].
  unfold printKey at 1. rewrite (js_get_own _ _ _ Hv), Hv. simpl.
  f_equal. apply IH. intros k' Hk'. apply Hown. now right.
Qed.

Lemma sortKeys_perm (localeCompare : string -> string -> Z)
    (ks : list string) :
  Permutation (sortKeys localeCompare ks) ks.
Proof. apply stable_sort_perm. Qed.

(** C7: with a collation that is a total preorder, the section of a
    member map is a single line feed when the map is empty; otherwise it
    is the heading, then one list line for each entry of the map, the
    entries in the order of the collation on their keys, then a line
    feed. *)
Theorem printMap_section (localeCompare : string -> string -> Z)
    {R} `{MemberRecord R} (title : string) (properties : JsObject R) :
  (forall a b, localeCompare a b <= 0 \/ localeCompare b a <= 0) ->
  (forall a b c,
      localeCompare a b <= 0 -> localeCompare b c <= 0 ->
      localeCompare a c <= 0) ->
  NoDup (map fst properties) ->
  (properties = [] -> printMap localeCompare title properties = nl)
  /\ (properties <> [] ->
      exists entries,
        Permutation entries properties
        /\ StronglySorted
             (fun x y => localeCompare (fst x) (fst y) <= 0) entries
        /\ printMap localeCompare title properties =
           "#### " ++ title ++ nl
           ++ join_empty (map entryLine entries)
           ++ nl).
Proof.
  intros Htotal Htrans Hnd. split; [now intros ->|].
  intros Hne.
  set (ks := sortKeys localeCompare (Object_keys properties)).
  assert (Hperm : Permutation ks (map fst properties)).
  { unfold ks. rewrite sortKeys_perm. apply Object_keys_perm. }
  assert (Hown : forall k, In k ks -> In k (map fst properties)).
  { intros k. apply Permutation_in. exact Hperm. }
  exists (entriesAt properties ks). split; [|split].
  - rewrite <- (entriesAt_all properties properties Hnd (incl_refl _)) at 2.
    unfold entriesAt. now apply Permutation_flat_map.
  - apply (StronglySorted_map_inv fst (fun a b => localeCompare a b <= 0)).
    rewrite (entriesAt_keys _ _ Hown).
    apply (StronglySorted_weaken
             (fun a b => (localeCompare a b <=? 0) = true)).
    + intros a b. apply Z.leb_le.
    + apply stable_sort_ordered.
      * intros a b. rewrite !Z.leb_le. apply Htotal.
      * intros a b c. rewrite !Z.leb_le. apply Htrans.
  - unfold printMap.
    destruct (Object_keys properties) as [|k0 ks0] eqn:Ek.
    + apply Object_keys_nil in Ek. contradiction.
    + fold ks. rewrite (printKey_entries _ _ Hown).
      unfold printH4. now rewrite !append_assoc.
Qed.

(** The collation of the examples is a total preorder. *)
Lemma compare_not_Gt_trans (a b c : string) :
  String.compare a b <> Gt -> String.compare b c <> Gt ->
  String.compare a c <> Gt.
Proof.
  revert b c; induction a as [|x a IH]; intros [|y b] [|z c];
    simpl; try congruence.
  unfold Ascii.compare.
  destruct (N.compare_spec (N_of_ascii x) (N_of_ascii y)) as [Exy|Lxy|Gxy];
    destruct (N.compare_spec (N_of_ascii y) (N_of_ascii z)) as [Eyz|Lyz|Gyz];
    destruct (N.compare_spec (N_of_ascii x) (N_of_ascii z)) as [Exz|Lxz|Gxz];
    try congruence; try lia.
  apply IH.
Qed.

Lemma baseCompare_le (a b : string) :
  baseCompare a b <= 0 <->
  String.compare (lowerCase a) (lowerCase b) <> Gt.
Proof.
  unfold baseCompare.
  destruct (String.compare (lowerCase a) (lowerCase b));
    split; intros; try lia; congruence.
Qed.

Lemma baseCompare_total (a b : string) :
  baseCompare a b <= 0 \/ baseCompare b a <= 0.
Proof.
  rewrite !baseCompare_le.
  rewrite (String.compare_antisym (lowerCase b)).
  destruct (String.compare (lowerCase a) (lowerCase b)); simpl;
    [left | left | right]; congruence.
Qed.

Lemma baseCompare_trans (a b c : string) :
  baseCompare a b <= 0 -> baseCompare b c <= 0 -> baseCompare a c <= 0.
Proof. rewrite !baseCompare_le. apply compare_not_Gt_trans. Qed.

Lemma printMap_section_witness :
  (getPublicMethods exFoo [] = [] ->
   printMap baseCompare "Methods" (getPublicMethods exFoo []) = nl)
  /\ (getPublicMethods exFoo [] <> [] ->
      exists entries,
        Permutation entries (getPublicMethods exFoo [])
        /\ StronglySorted
             (fun x y => baseCompare (fst x) (fst y) <= 0) entries
        /\ printMap baseCompare "Methods" (getPublicMethods exFoo []) =
           "#### " ++ "Methods" ++ nl
           ++ join_empty (map entryLine entries)
           ++ nl).
Proof.
  apply (printMap_section baseCompare "Methods" (getPublicMethods exFoo [])).
  - exact baseCompare_total.
  - exact baseCompare_trans.
  - vm_compute. repeat constructor; simpl; intuition discriminate.
Defined.

(** ** The fragment *)

Section WriterFacts.
Variable localeCompare : string -> string -> Z.

Lemma getApiClassContent_cases (this : TsFileParser) (className : string) :
  match getClassData this className with
  | (Ok (Own d), this') =>
      getApiClassContent localeCompare this className =
      (Ok (apiClassContentOf localeCompare d), this')
  | (Ok _, this') =>
      exists message,
        getApiClassContent localeCompare this className =
        (Throw (TypeError message), this')
  | (Throw e, this') =>
      getApiClassContent localeCompare this className = (Throw e, this')
  end.
Proof.
  unfold getApiClassContent.
  destruct (getClassData this className) as [[[d|k|]|e] this'];
    try reflexivity; eexists; reflexivity.
Qed.

Lemma getApiClassContent_declared (this : TsFileParser)
    (className : string) (c : ClassDeclaration) :
  reachable this ->
  find (name_is className) (sourceFile this) = Some c ->
  inherited_key className = false ->
  exists this',
    getApiClassContent localeCompare this className =
    (Ok (apiClassContentOf localeCompare (classDataOf c)), this').
Proof.
  intros Hr Hf Hinh.
  destruct (getClassData_declared this className c
              (reachable_registry_ok _ Hr) Hf) as [this' E].
  rewrite Hinh in E. exists this'.
  pose proof (getApiClassContent_cases this className) as Hc.
  now rewrite E in Hc.
Qed.

Lemma getApiClassContent_Ok (this : TsFileParser) (className : string)
    (content : string) (this' : TsFileParser) :
  getApiClassContent localeCompare this className = (Ok content, this') ->
  exists d,
    getClassData this className = (Ok (Own d), this')
    /\ content = apiClassContentOf localeCompare d.
Proof.
  intros H. pose proof (getApiClassContent_cases this className) as Hc.
  destruct (getClassData this className) as [[[d|k|]|e] p].
  - rewrite Hc in H. injection H as <- <-. now exists d.
  - destruct Hc as [m Hc]. congruence.
  - destruct Hc as [m Hc]. congruence.
  - congruence.
Qed.

(** A name that the source file does not declare never yields a
    fragment. *)
Lemma getApiClassContent_undeclared (this : TsFileParser)
    (className : string) :
  reachable this ->
  find (name_is className) (sourceFile this) = None ->
  exists e,
    getApiClassContent localeCompare this className = (Throw e, this).
Proof.
  intros Hr Hf.
  pose proof (getApiClassContent_cases this className) as Hc.
  destruct (getClassData_cases this className)
    as [[Ht E]|[(c & _ & Hf' & _)|(_ & _ & E)]]; [| congruence |].
  - rewrite E in Hc.
    destruct (js_get (classesDataMap this) className) as [d|k|] eqn:Eg.
    + exfalso. unfold js_get in Eg.
      destruct (own_get (classesDataMap this) className) as [d'|] eqn:Eo.
      * apply own_get_In in Eo.
        destruct (reachable_registry_ok _ Hr) as [_ Hreg].
        destruct (Hreg _ _ Eo) as (_ & c & Hf' & _). congruence.
      * destruct (inherited_key className); discriminate.
    + destruct Hc as [m Hc]. eexists; exact Hc.
    + discriminate.
  - rewrite E in Hc. eexists; exact Hc.
Qed.

(** C10: for a class without constructor the fragment, whenever one is
    rendered, continues after the title and the description with the
    heading of the constructor section and the line
    [- `undefined`: undefined]; a fragment is rendered for every such
    class whose name is not inherited from [Object.prototype]. *)
Theorem constructor_line_without_constructor (this : TsFileParser)
    (className : string) (c : ClassDeclaration) :
  reachable this ->
  find (name_is className) (sourceFile this) = Some c ->
  getConstructors c = [] ->
  (inherited_key className = false ->
   exists content this',
     getApiClassContent localeCompare this className = (Ok content, this'))
  /\ (forall content this',
         getApiClassContent localeCompare this className
         = (Ok content, this') ->
         content =
         printH3 (getTypedClassName c)
         ++ printDescription (firstCommentText (getJsDocs c))
         ++ "#### Constructor" ++ nl
         ++ "- `undefined`: undefined" ++ nl
         ++ printMap localeCompare "Properties" (getPublicProperties c [])
         ++ printMap localeCompare "Accessors" (getPublicAccessors c [])
         ++ printMap localeCompare "Methods" (getPublicMethods c [])).
Proof.
  intros Hr Hf Hc. split.
  - intros Hinh.
    destruct (getApiClassContent_declared this className c Hr Hf Hinh)
      as [this' E].
    now exists (apiClassContentOf localeCompare (classDataOf c)), this'.
  - intros content this' E.
    apply getApiClassContent_Ok in E as (d & Eg & ->).
    destruct (getClassData_declared this className c
                (reachable_registry_ok _ Hr) Hf) as [p E'].
    rewrite Eg in E'.
    destruct (inherited_key className); [discriminate|].
    injection E' as -> _.
    unfold apiClassContentOf, classDataOf; simpl. rewrite Hc.
    reflexivity.
Qed.
End WriterFacts.

Lemma constructor_line_without_constructor_witness :
  (inherited_key "Foo" = false ->
   exists content this',
     getApiClassContent baseCompare (newTsFileParser exClasses) "Foo"
     = (Ok content, this'))
  /\ (forall content this',
         getApiClassContent baseCompare (newTsFileParser exClasses) "Foo"
         = (Ok content, this') ->
         content =
         printH3 (getTypedClassName exFoo)
         ++ printDescription (firstCommentText (getJsDocs exFoo))
         ++ "#### Constructor" ++ nl
         ++ "- `undefined`: undefined" ++ nl
         ++ printMap baseCompare "Properties" (getPublicProperties exFoo [])
         ++ printMap baseCompare "Accessors" (getPublicAccessors exFoo [])
         ++ printMap baseCompare "Methods" (getPublicMethods exFoo [])).
Proof.
  apply (constructor_line_without_constructor baseCompare
           (newTsFileParser exClasses) "Foo" exFoo).
  - apply reachable_new.
  - reflexivity.
  - reflexivity.
Defined.

(** ** Writing the file *)

(** [indexOf] finds the first occurrence: it is not [-1] when the
    pattern occurs, and no occurrence starts before it. *)
Lemma indexOf_from_unfold (pat data : string) (i : Z) :
  indexOf_from pat data i =
  if String.prefix pat data then i
  else match data with
       | EmptyString => -1
       | String _ rest => indexOf_from pat rest (i + 1)
       end.
Proof. destruct data; reflexivity. Qed.

Lemma indexOf_from_first (pat pre post : string) (i : Z) :
  0 <= i ->
  i <= indexOf_from pat (pre ++ pat ++ post) i <= i + js_length pre.
Proof.
  revert i; induction pre as [|x pre IH]; intros i Hi.
  - change ("" ++ pat ++ post) with (pat ++ post).
    rewrite indexOf_from_unfold, prefix_append.
    unfold js_length; simpl String.length; lia.
  - change (String x pre ++ pat ++ post) with (String x (pre ++ pat ++ post)).
    rewrite indexOf_from_cons.
    destruct (String.prefix pat (String x (pre ++ pat ++ post))).
    + unfold js_length; simpl String.length; lia.
    + specialize (IH (i + 1) ltac:(lia)).
      unfold js_length in *; simpl String.length; lia.
Qed.

Lemma indexOf_occurs (data pat : string) :
  indexOf data pat <> -1 <-> exists pre post, data = pre ++ pat ++ post.
Proof.
  split.
  - intros H. destruct (indexOf_found data pat H) as (pre & post & Hd & _).
    now exists pre, post.
  - intros (pre & post & ->). unfold indexOf.
    pose proof (indexOf_from_first pat pre post 0 ltac:(lia)). lia.
Qed.

Section WriteFacts.
Variable localeCompare : string -> string -> Z.

Lemma endIndex_never_minus_one (data className : string) :
  (indexOf data (endCommentOf className)
   + js_length (endCommentOf className) =? -1) = false.
Proof.
  apply Z.eqb_neq.
  pose proof (indexOf_range data (endCommentOf className)).
  pose proof (marker_length_positive className). lia.
Qed.

(** The start marker is absent: the failure is reported and nothing
    is written. *)
Lemma writeApiClassContent_no_start (st : State) (className data : string) :
  files st (mdPath (writer st)) = Some data ->
  indexOf data (startCommentOf className) = -1 ->
  writeApiClassContent localeCompare st className =
  (Ok tt,
   withEffects st (tsFileParser (writer st)) (files st)
     [ FsRead (mdPath (writer st));
       ConsoleError (notFoundMessage className) ]).
Proof.
  intros Hfile Hstart. unfold writeApiClassContent.
  rewrite Hfile, Hstart. reflexivity.
Qed.

(** The start marker is present: the fragment is asked for, whether
    the end marker is present or not, and the write is attempted. *)
Lemma writeApiClassContent_start_cases (st : State)
    (className data : string) :
  files st (mdPath (writer st)) = Some data ->
  indexOf data (startCommentOf className) <> -1 ->
  writeApiClassContent localeCompare st className =
  match getApiClassContent localeCompare (tsFileParser (writer st))
          className with
  | (Throw e, p) =>
      (Throw e, withEffects st p (files st) [FsRead (mdPath (writer st))])
  | (Ok content, p) =>
      let updatedContent := updatedContentOf data className content in
      if writable st (mdPath (writer st)) then
        (Ok tt,
         withEffects st p
           (writeFile (files st) (mdPath (writer st)) updatedContent)
           [ FsRead (mdPath (writer st));
             FsWrite (mdPath (writer st)) updatedContent;
             ConsoleLog (insertedMessage className) ])
      else
        (Throw IoError,
         withEffects st p (files st)
           [ FsRead (mdPath (writer st));
             FsWriteRejected (mdPath (writer st)) updatedContent ])
  end.
Proof.
  intros Hfile Hstart. unfold writeApiClassContent.
  rewrite Hfile, endIndex_never_minus_one.
  apply Z.eqb_neq in Hstart. rewrite Hstart. simpl negb. simpl andb.
  destruct (getApiClassContent localeCompare (tsFileParser (writer st))
              className) as [[content|e] p]; [|reflexivity].
  unfold updatedContentOf.
  replace (indexOf data (endCommentOf className)
           + js_length (endCommentOf className)
           - js_length (endCommentOf className))
    with (indexOf data (endCommentOf className)) by lia.
  reflexivity.
Qed.

(** The same when the write succeeds. *)
Lemma writeApiClassContent_start (st : State) (className data : string) :
  files st (mdPath (writer st)) = Some data ->
  indexOf data (startCommentOf className) <> -1 ->
  writable st (mdPath (writer st)) = true ->
  writeApiClassContent localeCompare st className =
  match getApiClassContent localeCompare (tsFileParser (writer st))
          className with
  | (Throw e, p) =>
      (Throw e, withEffects st p (files st) [FsRead (mdPath (writer st))])
  | (Ok content, p) =>
      let updatedContent := updatedContentOf data className content in
      (Ok tt,
       withEffects st p
         (writeFile (files st) (mdPath (writer st)) updatedContent)
         [ FsRead (mdPath (writer st));
           FsWrite (mdPath (writer st)) updatedContent;
           ConsoleLog (insertedMessage className) ])
  end.
Proof.
  intros Hfile Hstart Hw.
  rewrite (writeApiClassContent_start_cases st className data Hfile Hstart).
  cbv zeta. now rewrite Hw.
Qed.

Lemma append_split_le (a b c d : string) :
  a ++ b = c ++ d -> js_length a <= js_length c ->
  exists m, c = a ++ m /\ b = m ++ d.
Proof.
  unfold js_length. revert c; induction a as [|x a IH]; intros c Heq Hlen.
  - exists c. now split.
  - destruct c as [|y c]; simpl in Hlen; [lia|].
    simpl in Heq. injection Heq as -> Heq.
    destruct (IH c Heq ltac:(lia)) as (m & -> & ->).
    exists m. now split.
Qed.

(** C6, amended: when both markers are found, a fragment is rendered
    and the write succeeds, the call writes, once, the text made of the
    document up to and including the first start marker, a line feed,
    the fragment, and the document from the first end marker on, and
    logs the success.  When the first end marker begins at or after the
    end of the first start marker, the document is
    [pre ++ start ++ mid ++ end ++ post] and only [mid] is replaced:
    both markers and all text outside them are kept. *)
Theorem writeApiClassContent_replaces_between_markers
    (st : State) (className data content : string) (p : TsFileParser) :
  files st (mdPath (writer st)) = Some data ->
  writable st (mdPath (writer st)) = true ->
  indexOf data (startCommentOf className) <> -1 ->
  indexOf data (endCommentOf className) <> -1 ->
  getApiClassContent localeCompare (tsFileParser (writer st)) className
  = (Ok content, p) ->
  exists pre rest pre' post,
    data = pre ++ startCommentOf className ++ rest
    /\ js_length pre = indexOf data (startCommentOf className)
    /\ data = pre' ++ endCommentOf className ++ post
    /\ js_length pre' = indexOf data (endCommentOf className)
    /\ (let updated :=
          pre ++ startCommentOf className ++ nl ++ content
          ++ endCommentOf className ++ post in
        writeApiClassContent localeCompare st className =
        (Ok tt,
         withEffects st p
           (writeFile (files st) (mdPath (writer st)) updated)
           [ FsRead (mdPath (writer st));
             FsWrite (mdPath (writer st)) updated;
             ConsoleLog (insertedMessage className) ]))
    /\ (indexOf data (startCommentOf className)
        + js_length (startCommentOf className)
        <= indexOf data (endCommentOf className) ->
        replaces_only_between_markers data className content
          (pre ++ startCommentOf className ++ nl ++ content
           ++ endCommentOf className ++ post)).
Proof.
  intros Hfile Hw Hstart Hend Hfrag.
  destruct (indexOf_found _ _ Hstart) as (pre & rest & Hd & Hi).
  destruct (indexOf_found _ _ Hend) as (pre' & post & Hd' & Hj).
  exists pre, rest, pre', post.
  repeat split; try assumption; try (symmetry; assumption).
  - rewrite (writeApiClassContent_start st className data Hfile Hstart Hw).
    rewrite Hfrag.
    assert (Hup : updatedContentOf data className content =
                  pre ++ startCommentOf className ++ nl ++ content
                  ++ endCommentOf className ++ post).
    { assert (Hsuffix : slice_from data (js_length pre')
                        = endCommentOf className ++ post)
        by (rewrite Hd'; apply slice_from_suffix).
      assert (Hprefix : slice data 0
                          (js_length (pre ++ startCommentOf className))
                        = pre ++ startCommentOf className)
        by (rewrite Hd, <- append_assoc; apply slice_prefix).
      unfold updatedContentOf. rewrite Hj, Hsuffix, Hi.
      replace (js_length pre + js_length (startCommentOf className))
        with (js_length (pre ++ startCommentOf className))
        by (unfold js_length; rewrite length_append; lia).
      rewrite Hprefix. now rewrite !append_assoc. }
    cbv zeta. now rewrite Hup.
  - intros Hle. rewrite Hi, Hj in Hle.
    assert (Heq : (pre ++ startCommentOf className) ++ rest
                  = pre' ++ endCommentOf className ++ post)
      by (rewrite append_assoc; congruence).
    apply append_split_le in Heq as (mid & Hpre' & Hrest).
    + exists pre, mid, post. split; [|reflexivity].
      rewrite Hd at 1. now rewrite Hrest.
    + unfold js_length in *. rewrite length_append. lia.
Qed.

(** A name the source file does not declare: whatever the document
    holds, nothing is written. *)
Lemma writeApiClassContent_undeclared (st : State) (className : string) :
  reachable (tsFileParser (writer st)) ->
  find (name_is className) (sourceFile (tsFileParser (writer st))) = None ->
  exists es,
    effects (snd (writeApiClassContent localeCompare st className))
    = (effects st ++ es)%list
    /\ wrote es = false
    /\ files (snd (writeApiClassContent localeCompare st className))
       = files st.
Proof.
  intros Hr Hf.
  destruct (files st (mdPath (writer st))) as [data|] eqn:Hfile.
  - destruct (Z.eq_dec (indexOf data (startCommentOf className)) (-1))
      as [Hs|Hs].
    + rewrite (writeApiClassContent_no_start st className data Hfile Hs).
      eexists; simpl; repeat split.
    + rewrite (writeApiClassContent_start_cases st className data Hfile Hs).
      destruct (getApiClassContent_undeclared localeCompare _ _ Hr Hf)
        as [e ->].
      eexists; simpl; repeat split.
  - unfold writeApiClassContent. rewrite Hfile.
    eexists; simpl; repeat split.
Qed.
End WriteFacts.

Lemma writeApiClassContent_replaces_between_markers_witness :
  exists pre rest pre' post,
    exDocument = pre ++ startCommentOf "Foo" ++ rest
    /\ js_length pre = indexOf exDocument (startCommentOf "Foo")
    /\ exDocument = pre' ++ endCommentOf "Foo" ++ post
    /\ js_length pre' = indexOf exDocument (endCommentOf "Foo")
    /\ (let updated :=
          pre ++ startCommentOf "Foo" ++ nl
          ++ apiClassContentOf baseCompare (classDataOf exFoo)
          ++ endCommentOf "Foo" ++ post in
        writeApiClassContent baseCompare (exState exDocument) "Foo" =
        (Ok tt,
         withEffects (exState exDocument)
           (snd (getClassData (newTsFileParser exClasses) "Foo"))
           (writeFile (files (exState exDocument)) "README.md" updated)
           [ FsRead "README.md";
             FsWrite "README.md" updated;
             ConsoleLog (insertedMessage "Foo") ]))
    /\ replaces_only_between_markers exDocument "Foo"
         (apiClassContentOf baseCompare (classDataOf exFoo))
         (pre ++ startCommentOf "Foo" ++ nl
          ++ apiClassContentOf baseCompare (classDataOf exFoo)
          ++ endCommentOf "Foo" ++ post).
Proof.
  destruct (writeApiClassContent_replaces_between_markers baseCompare
              (exState exDocument) "Foo" exDocument
              (apiClassContentOf baseCompare (classDataOf exFoo))
              (snd (getClassData (newTsFileParser exClasses) "Foo")))
    as (pre & rest & pre' & post & H1 & H2 & H3 & H4 & H5 & H6).
  - reflexivity.
  - reflexivity.
  - vm_compute. discriminate.
  - vm_compute. discriminate.
  - reflexivity.
  - exists pre, rest, pre', post.
    split; [exact H1|]. split; [exact H2|]. split; [exact H3|].
    split; [exact H4|]. split; [exact H5|].
    apply H6. vm_compute. discriminate.
Defined.

Lemma exReversed_lengths :
  String.length exReversed = 56%nat
  /\ String.length (startCommentOf "Foo") = 29%nat
  /\ String.length (endCommentOf "Foo") = 27%nat.
Proof. repeat split. Qed.

Lemma length_zero_empty (s : string) : String.length s = 0%nat -> s = "".
Proof. destruct s; [reflexivity | discriminate]. Qed.

(** C6 as it is stated: whenever both markers are found (and a fragment
    is rendered and written), the text written is the document with
    only the text between the markers replaced.  It fails for a
    document in which the end marker comes before the start marker:
    such a document has no text between a start marker and a later end
    marker, and the call writes the whole document, the fragment, and
    the whole document again. *)
Lemma replacement_as_stated_fails :
  ~ (forall (localeCompare : string -> string -> Z) (st : State)
            (className data content : string) (p : TsFileParser),
        files st (mdPath (writer st)) = Some data ->
        writable st (mdPath (writer st)) = true ->
        indexOf data (startCommentOf className) <> -1 ->
        indexOf data (endCommentOf className) <> -1 ->
        getApiClassContent localeCompare (tsFileParser (writer st)) className
        = (Ok content, p) ->
        exists updated,
          files (snd (writeApiClassContent localeCompare st className))
            (mdPath (writer st)) = Some updated
          /\ replaces_only_between_markers data className content updated).
Proof.
  intros H.
  destruct (H baseCompare (exState exReversed) "Foo" exReversed
              (apiClassContentOf baseCompare (classDataOf exFoo))
              (snd (getClassData (newTsFileParser exClasses) "Foo")))
    as (updated & _ & pre & mid & post & Hdata & _).
  - reflexivity.
  - reflexivity.
  - vm_compute. discriminate.
  - vm_compute. discriminate.
  - reflexivity.
  - destruct exReversed_lengths as (Hlen & Hs & He).
    pose proof (f_equal String.length Hdata) as Hl.
    rewrite !length_append, Hlen, Hs, He in Hl.
    assert (Hpre : pre = "") by (apply length_zero_empty; lia).
    assert (Hmid : mid = "") by (apply length_zero_empty; lia).
    assert (Hpost : post = "") by (apply length_zero_empty; lia).
    subst pre mid post. vm_compute in Hdata. discriminate.
Qed.

(** What the call writes for that document. *)
Lemma writeApiClassContent_reversed_markers :
  files (snd (writeApiClassContent baseCompare (exState exReversed) "Foo"))
    "README.md"
  = Some (exReversed ++ nl
          ++ apiClassContentOf baseCompare (classDataOf exFoo)
          ++ exReversed).
Proof. vm_compute. reflexivity. Qed.

(** With the start marker present and the end marker absent the call
    still writes, when the write succeeds: the suffix it appends is
    [data.slice(-1)]. *)
Lemma writeApiClassContent_end_missing
    (localeCompare : string -> string -> Z)
    (st : State) (className data content : string) (p : TsFileParser) :
  files st (mdPath (writer st)) = Some data ->
  writable st (mdPath (writer st)) = true ->
  indexOf data (startCommentOf className) <> -1 ->
  indexOf data (endCommentOf className) = -1 ->
  getApiClassContent localeCompare (tsFileParser (writer st)) className
  = (Ok content, p) ->
  let updated :=
    slice data 0
      (indexOf data (startCommentOf className)
       + js_length (startCommentOf className))
    ++ nl ++ content ++ slice_from data (-1) in
  writeApiClassContent localeCompare st className =
  (Ok tt,
   withEffects st p (writeFile (files st) (mdPath (writer st)) updated)
     [ FsRead (mdPath (writer st));
       FsWrite (mdPath (writer st)) updated;
       ConsoleLog (insertedMessage className) ]).
Proof.
  intros Hfile Hw Hstart Hend Hfrag.
  rewrite (writeApiClassContent_start localeCompare st className data
             Hfile Hstart Hw), Hfrag.
  unfold updatedContentOf. now rewrite Hend.
Qed.

(** C1, at a document that holds the start marker of [Foo] and no end
    marker: [endIndex] is [-1 + endComment.length], which is not [-1],
    so the test passes; the file is overwritten with the start marker,
    the fragment and the last character of the document
    ([data.slice(-1)]), and success is logged. *)
Theorem writeApiClassContent_end_marker_missing_writes :
  let data := startCommentOf "Foo" in
  let r := writeApiClassContent baseCompare (exState data) "Foo" in
  let updated :=
    data ++ nl ++ apiClassContentOf baseCompare (classDataOf exFoo) ++ ">" in
  indexOf data (startCommentOf "Foo") = 0
  /\ indexOf data (endCommentOf "Foo") = -1
  /\ fst r = Ok tt
  /\ files (snd r) "README.md" = Some updated
  /\ updated <> data
  /\ effects (snd r) =
     [ FsRead "README.md";
       FsWrite "README.md" updated;
       ConsoleLog (insertedMessage "Foo") ].
Proof.
  cbv zeta. repeat split; try (vm_compute; reflexivity).
  vm_compute. discriminate.
Qed.

(** C2, at the property [y] of [Foo], which has no doc comment: the
    template literal prints the absent description as the text
    [undefined] after the separator. *)
Theorem printListItem_absent_description :
  firstCommentText (PropertyDeclaration.getJsDocs exFoo_y) = None
  /\ printMap baseCompare "Properties" (getPublicProperties exFoo []) =
     "#### Properties" ++ nl ++ "- `y: T;`: undefined" ++ nl ++ nl
  /\ forall title,
       printListItem (Some title) None
       = "- `" ++ title ++ "`: undefined" ++ nl
       /\ printListItem (Some title) None <> "- `" ++ title ++ "`: " ++ nl.
Proof.
  split; [reflexivity|]. split; [vm_compute; reflexivity|].
  intros title. split; [reflexivity|].
  intros H. apply (f_equal String.length) in H.
  unfold printListItem in H. simpl in H.
  rewrite !length_append in H. simpl in H. lia.
Qed.

(** * Further properties of the parser *)

(** ** What the merged maps hold *)

(** X1: for a name that is not inherited from [Object.prototype], each
    merged map binds the name to the record of the first declaration of
    that name with public or unspecified scope, the declarations of the
    class coming first and those of each ancestor after, and leaves the
    name undefined when the chain has no such declaration. *)
Theorem merged_map_lookup (c : ClassDeclaration) (n : string) :
  inherited_key n = false ->
  js_get (getPublicProperties c []) n =
  match find (declares PropertyDeclaration.name PropertyDeclaration.scope n)
          (flat_map getProperties (chainOf c)) with
  | Some p => Own (propertyRecord p)
  | None => Undefined
  end
  /\ js_get (getPublicAccessors c []) n =
     match find (declares GetAccessorDeclaration.name
                   GetAccessorDeclaration.scope n)
             (flat_map getGetAccessors (chainOf c)) with
     | Some g => Own (accessorRecord g)
     | None => Undefined
     end
  /\ js_get (getPublicMethods c []) n =
     match find (declares MethodDeclaration.name MethodDeclaration.scope n)
             (flat_map getMethods (chainOf c)) with
     | Some m => Own (methodRecord m)
     | None => Undefined
     end.
Proof.
  intros Hinh. repeat split.
  - rewrite getPublicProperties_collected. now apply collected_lookup.
  - rewrite getPublicAccessors_collected. now apply collected_lookup.
  - rewrite getPublicMethods_collected. now apply collected_lookup.
Qed.

Lemma merged_map_lookup_witness :
  js_get (getPublicProperties exFoo []) "size" =
  match find (declares PropertyDeclaration.name PropertyDeclaration.scope
                "size")
          (flat_map getProperties (chainOf exFoo)) with
  | Some p => Own (propertyRecord p)
  | None => Undefined
  end
  /\ js_get (getPublicAccessors exFoo []) "size" =
     match find (declares GetAccessorDeclaration.name
                   GetAccessorDeclaration.scope "size")
             (flat_map getGetAccessors (chainOf exFoo)) with
     | Some g => Own (accessorRecord g)
     | None => Undefined
     end
  /\ js_get (getPublicMethods exFoo []) "size" =
     match find (declares MethodDeclaration.name MethodDeclaration.scope
                   "size")
             (flat_map getMethods (chainOf exFoo)) with
     | Some m => Own (methodRecord m)
     | None => Undefined
     end.
Proof. apply (merged_map_lookup exFoo "size"). reflexivity. Defined.

(** X2: a name that every object inherits from [Object.prototype]
    (such as [toString] or [constructor]) never becomes a key of a
    merged map, whatever the classes declare: the guard [!acc[name]]
    reads the inherited value. *)
Theorem inherited_names_never_collected (c : ClassDeclaration) (n : string) :
  inherited_key n = true ->
  ~ In n (Object_keys (getPublicProperties c []))
  /\ ~ In n (Object_keys (getPublicAccessors c []))
  /\ ~ In n (Object_keys (getPublicMethods c [])).
Proof.
  intros Hinh.
  assert (H : forall {D R} (dname : D -> string) dscope (record : D -> R)
                     members,
             ~ In n (Object_keys (collected dname dscope record members c))).
  { intros D R dname dscope record members Hin.
    apply (Permutation_in _ (Object_keys_perm _)) in Hin.
    apply own_get_key in Hin as [r Hr].
    unfold collected in Hr. rewrite reduce_own_get in Hr.
    simpl in Hr. rewrite Hinh in Hr. discriminate. }
  rewrite getPublicProperties_collected, getPublicAccessors_collected,
    getPublicMethods_collected.
  repeat split; apply H.
Qed.

Lemma inherited_names_never_collected_witness :
  ~ In "toString" (Object_keys (getPublicProperties exBar []))
  /\ ~ In "toString" (Object_keys (getPublicAccessors exBar []))
  /\ ~ In "toString" (Object_keys (getPublicMethods exBar [])).
Proof.
  apply (inherited_names_never_collected exBar "toString"). reflexivity.
Defined.

Lemma type_text_not_empty (type : option string) : type_text type <> "".
Proof.
  unfold type_text. destruct type as [[|x s]|]; simpl; discriminate.
Qed.

Lemma reduce_extends {D R : Type} (dname : D -> string)
    (dscope : D -> option Scope) (record : D -> R)
    (ds : list D) (acc : JsObject R) :
  exists ext,
    fold_left (reduceFn dname dscope record) ds acc = (acc ++ ext)%list.
Proof.
  revert acc; induction ds as [|d ds IH]; intros acc; simpl.
  - exists []. now rewrite app_nil_r.
  - unfold reduceFn at 2.
    destruct (truthy (js_get acc (dname d))) eqn:Ht; simpl; [apply IH|].
    destruct (public_or_unspecified (dscope d)); [|apply IH].
    apply js_get_falsy in Ht as [Hown _].
    rewrite (js_set_fresh _ _ _ Hown).
    destruct (IH (acc ++ [(dname d, record d)])%list) as [ext ->].
    exists ((dname d, record d) :: ext). now rewrite <- app_assoc.
Qed.

(** X3: the collectors only add to the map they are given: the result
    is that map followed by new entries, so no entry is removed,
    replaced or moved. *)
Theorem collectors_extend_accumulator (c : ClassDeclaration) :
  (forall map, exists ext, getPublicProperties c map = (map ++ ext)%list)
  /\ (forall map, exists ext, getPublicAccessors c map = (map ++ ext)%list)
  /\ (forall map, exists ext, getPublicMethods c map = (map ++ ext)%list).
Proof.
  repeat split; intros map.
  - rewrite getPublicProperties_chain, propertiesReduceFn_generic.
    apply reduce_extends.
  - rewrite getPublicAccessors_chain, accessorsReduceFn_generic.
    apply reduce_extends.
  - rewrite getPublicMethods_chain, methodsReduceFn_generic.
    apply reduce_extends.
Qed.

(** X4: the type text of a record of a merged map is never empty: a
    declaration without type text, or with an empty one, is recorded
    with the text [unknown]. *)
Theorem member_type_never_empty (c : ClassDeclaration) :
  (forall n r, In (n, r) (getPublicProperties c []) -> PropertyMap.type r <> "")
  /\ (forall n r,
         In (n, r) (getPublicAccessors c []) -> AccessorMap.returnType r <> "")
  /\ (forall n r,
         In (n, r) (getPublicMethods c []) -> MethodMap.returnType r <> "").
Proof.
  repeat split; intros n r Hin.
  - rewrite getPublicProperties_collected in Hin.
    apply collected_provenance in Hin as (a & d & _ & _ & _ & _ & ->).
    apply type_text_not_empty.
  - rewrite getPublicAccessors_collected in Hin.
    apply collected_provenance in Hin as (a & d & _ & _ & _ & _ & ->).
    apply type_text_not_empty.
  - rewrite getPublicMethods_collected in Hin.
    apply collected_provenance in Hin as (a & d & _ & _ & _ & _ & ->).
    apply type_text_not_empty.
Qed.

Lemma member_type_never_empty_witness :
  PropertyMap.type (propertyRecord exBar_n) <> "".
Proof.
  apply (proj1 (member_type_never_empty exBar) "n" (propertyRecord exBar_n)).
  simpl. left. reflexivity.
Defined.

(** ** The registry over a sequence of calls *)

Lemma getClassData_result (this : TsFileParser) (className : string) :
  registry_ok this ->
  fst (getClassData this className) =
  match find (name_is className) (sourceFile this) with
  | Some c =>
      Ok (if inherited_key className then Inherited className
          else Own (classDataOf c))
  | None =>
      if inherited_key className then Ok (Inherited className)
      else Throw (Error "className not found!")
  end.
Proof.
  intros Hok.
  destruct (find (name_is className) (sourceFile this)) as [c|] eqn:Hf.
  - destruct (getClassData_declared this className c Hok Hf) as [p ->].
    reflexivity.
  - destruct (inherited_key className) eqn:Hinh.
    + destruct Hok as [_ Hreg].
      assert (Hown : own_get (classesDataMap this) className = None).
      { destruct (own_get (classesDataMap this) className) as [d|] eqn:Eo;
          [|reflexivity].
        apply own_get_In in Eo.
        destruct (Hreg _ _ Eo) as (Hinh' & _). congruence. }
      rewrite getClassData_memo; unfold js_get; rewrite Hown, Hinh;
        reflexivity.
    + now rewrite (getClassData_undeclared this className Hok Hf Hinh).
Qed.

(** X5: memoization is transparent.  Whatever calls were made before,
    a reachable parser answers [getClassData] as a new parser on the
    same source file does, and renders the same fragment or throws the
    same error. *)
Theorem getClassData_history_independent
    (localeCompare : string -> string -> Z)
    (this : TsFileParser) (className : string) :
  reachable this ->
  fst (getClassData this className)
  = fst (getClassData (newTsFileParser (sourceFile this)) className)
  /\ fst (getApiClassContent localeCompare this className)
     = fst (getApiClassContent localeCompare
              (newTsFileParser (sourceFile this)) className).
Proof.
  intros Hr.
  assert (Hg : fst (getClassData this className)
               = fst (getClassData (newTsFileParser (sourceFile this))
                        className)).
  { rewrite (getClassData_result this className
               (reachable_registry_ok _ Hr)).
    rewrite (getClassData_result (newTsFileParser (sourceFile this))
               className (reachable_registry_ok _ (reachable_new _))).
    reflexivity. }
  split; [exact Hg|].
  unfold getApiClassContent.
  destruct (getClassData this className) as [r1 p1].
  destruct (getClassData (newTsFileParser (sourceFile this)) className)
    as [r2 p2].
  simpl in Hg. subst r2.
  destruct r1 as [[d|k|]|e]; reflexivity.
Qed.

Lemma getClassData_history_independent_witness :
  fst (getClassData (snd (getClassData (newTsFileParser exClasses) "Base"))
         "Foo")
  = fst (getClassData
           (newTsFileParser
              (sourceFile
                 (snd (getClassData (newTsFileParser exClasses) "Base"))))
           "Foo")
  /\ fst (getApiClassContent baseCompare
            (snd (getClassData (newTsFileParser exClasses) "Base")) "Foo")
     = fst (getApiClassContent baseCompare
              (newTsFileParser
                 (sourceFile
                    (snd (getClassData (newTsFileParser exClasses) "Base"))))
              "Foo").
Proof.
  apply (getClassData_history_independent baseCompare
           (snd (getClassData (newTsFileParser exClasses) "Base")) "Foo").
  apply (reachable_call (newTsFileParser exClasses) "Base"
           (Ok (Own (classDataOf exBase)))).
  - apply reachable_new.
  - reflexivity.
Defined.

(** X6: a call of [getClassData] never changes the source file and
    never removes, replaces or moves an entry of the registry: it adds
    at most one entry, at the end; a call that throws leaves the parser
    exactly as it was. *)
Theorem getClassData_registry_grows (this : TsFileParser)
    (className : string) (r : Result (JsLookup ClassDataMap.t))
    (this' : TsFileParser) :
  getClassData this className = (r, this') ->
  sourceFile this' = sourceFile this
  /\ (exists ext,
        classesDataMap this' = (classesDataMap this ++ ext)%list
        /\ (List.length ext <= 1)%nat
        /\ forall k d, In (k, d) ext -> k = className)
  /\ (forall e, r = Throw e -> this' = this).
Proof.
  intros H.
  assert (Hsame : exists ext : ClassesDataMap,
             classesDataMap this = (classesDataMap this ++ ext)%list
             /\ (List.length ext <= 1)%nat
             /\ forall k d, In (k, d) ext -> k = className).
  { exists []. rewrite app_nil_r. split; [reflexivity|].
    split; [simpl; lia | intros k d []]. }
  destruct (getClassData_cases this className)
    as [[_ E]|[(c & Ht & _ & E)|(_ & _ & E)]];
    rewrite E in H; injection H as <- <-.
  - split; [reflexivity|]. split; [exact Hsame | discriminate].
  - simpl. split; [reflexivity|]. split; [|discriminate].
    apply js_get_falsy in Ht as [Hown _].
    rewrite (js_set_fresh _ _ _ Hown).
    exists [(className, classDataOf c)]. split; [reflexivity|].
    split; [simpl; lia|].
    intros k d [Heq|[]]. now injection Heq as <- _.
  - split; [reflexivity|]. split; [exact Hsame | reflexivity].
Qed.

Lemma getClassData_registry_grows_witness :
  sourceFile (snd (getClassData (newTsFileParser exClasses) "Foo"))
  = sourceFile (newTsFileParser exClasses)
  /\ (exists ext,
        classesDataMap (snd (getClassData (newTsFileParser exClasses) "Foo"))
        = (classesDataMap (newTsFileParser exClasses) ++ ext)%list
        /\ (List.length ext <= 1)%nat
        /\ forall k d, In (k, d) ext -> k = "Foo")
  /\ (forall e,
         Ok (Own (classDataOf exFoo)) = Throw e ->
         snd (getClassData (newTsFileParser exClasses) "Foo")
         = newTsFileParser exClasses).
Proof.
  apply (getClassData_registry_grows (newTsFileParser exClasses) "Foo"
           (Ok (Own (classDataOf exFoo)))
           (snd (getClassData (newTsFileParser exClasses) "Foo"))).
  reflexivity.
Defined.

(** ** Titles and descriptions *)

Lemma append_eq_self (a b : string) : a ++ b = a -> b = "".
Proof.
  induction a as [|x a IH]; simpl; intros H; [exact H|].
  injection H as H. now apply IH.
Qed.

(** X7: the title of a named class begins with its name; it is the bare
    name exactly when the class has no type parameters, and otherwise
    the name followed by the parameters, joined by a comma and a space,
    between angle brackets. *)
Theorem getTypedClassName_shape (c : ClassDeclaration) (name : string) :
  getName c = Some name ->
  (getTypeParameters c = [] <-> getTypedClassName c = name)
  /\ (getTypeParameters c <> [] ->
      getTypedClassName c =
      name ++ "<" ++ join ", " (getTypeParameters c) ++ ">").
Proof.
  intros Hn. unfold getTypedClassName. rewrite Hn. simpl.
  destruct (getTypeParameters c) as [|t ts]; split.
  - split; reflexivity.
  - intros H. now contradiction H.
  - split; [discriminate|].
    intros H. apply append_eq_self in H. discriminate.
  - reflexivity.
Qed.

Lemma getTypedClassName_shape_witness :
  (getTypeParameters exFoo = [] <-> getTypedClassName exFoo = "Foo")
  /\ (getTypeParameters exFoo <> [] ->
      getTypedClassName exFoo =
      "Foo" ++ "<" ++ join ", " (getTypeParameters exFoo) ++ ">").
Proof. apply (getTypedClassName_shape exFoo "Foo"). reflexivity. Defined.

(** X8: [printDescription] gives a single line feed exactly when the
    description is absent or empty, which it does not tell apart; any
    other description is printed followed by a line feed. *)
Theorem printDescription_blank (description : option string) :
  (printDescription description = nl <->
   description = None \/ description = Some "")
  /\ (forall s, description = Some s -> s <> "" ->
      printDescription description = s ++ nl).
Proof.
  split.
  - destruct description as [[|x s]|]; unfold printDescription; simpl.
    + split; [now right | reflexivity].
    + split; [|intros [H|H]; discriminate].
      intros H. injection H as _ H.
      exfalso. destruct s; discriminate.
    + split; [now left | reflexivity].
  - intros s -> Hs. destruct s; [contradiction | reflexivity].
Qed.

Lemma printDescription_blank_witness :
  printDescription (Some "A bar.") = "A bar." ++ nl.
Proof.
  apply (proj2 (printDescription_blank (Some "A bar.")) "A bar.").
  - reflexivity.
  - discriminate.
Defined.

(** * Further properties of the writer *)

Lemma getApiClassContent_parser (localeCompare : string -> string -> Z)
    (this : TsFileParser) (className : string) :
  snd (getApiClassContent localeCompare this className)
  = snd (getClassData this className).
Proof.
  unfold getApiClassContent.
  destruct (getClassData this className) as [[[d|k|]|e] p]; reflexivity.
Qed.

Lemma getClassData_again (this : TsFileParser) (className : string)
    (v : JsLookup ClassDataMap.t) (p : TsFileParser) :
  getClassData this className = (Ok v, p) ->
  getClassData p className = (Ok v, p).
Proof.
  intros H.
  destruct (getClassData_cases this className)
    as [[Ht E]|[(c & _ & _ & E)|(_ & _ & E)]];
    rewrite E in H; [| |discriminate].
  - injection H as <- <-. exact E.
  - injection H as <- <-.
    rewrite getClassData_memo; simpl; now rewrite js_get_set_same.
Qed.

Lemma getApiClassContent_again (localeCompare : string -> string -> Z)
    (this : TsFileParser) (className content : string) (p : TsFileParser) :
  getApiClassContent localeCompare this className = (Ok content, p) ->
  getApiClassContent localeCompare p className = (Ok content, p).
Proof.
  intros H. apply getApiClassContent_Ok in H as (d & Hg & ->).
  apply getClassData_again in Hg.
  pose proof (getApiClassContent_cases localeCompare p className) as Hc.
  now rewrite Hg in Hc.
Qed.

(** ** What one call does and leaves alone *)

(** X9: a call of [writeApiClassContent] keeps the writer's path and the
    parser's source file, keeps the parser reachable, and leaves every
    file other than the writer's own as it was. *)
Theorem writeApiClassContent_frame (localeCompare : string -> string -> Z)
    (st : State) (className : string) :
  mdPath (writer (snd (writeApiClassContent localeCompare st className)))
  = mdPath (writer st)
  /\ sourceFile
       (tsFileParser
          (writer (snd (writeApiClassContent localeCompare st className))))
     = sourceFile (tsFileParser (writer st))
  /\ (reachable (tsFileParser (writer st)) ->
      reachable
        (tsFileParser
           (writer (snd (writeApiClassContent localeCompare st className)))))
  /\ (forall path,
         path <> mdPath (writer st) ->
         files (snd (writeApiClassContent localeCompare st className)) path
         = files st path).
Proof.
  pose proof (getApiClassContent_parser localeCompare
                (tsFileParser (writer st)) className) as Hp.
  assert (Hsrc : sourceFile (snd (getClassData (tsFileParser (writer st))
                                    className))
                 = sourceFile (tsFileParser (writer st))).
  { destruct (getClassData (tsFileParser (writer st)) className)
      as [r p] eqn:E.
    exact (getClassData_sourceFile _ _ _ _ E). }
  assert (Hreach : reachable (tsFileParser (writer st)) ->
                   reachable (snd (getClassData (tsFileParser (writer st))
                                     className))).
  { intros Hr.
    destruct (getClassData (tsFileParser (writer st)) className)
      as [r p] eqn:E.
    exact (reachable_call _ _ _ _ Hr E). }
  destruct (files st (mdPath (writer st))) as [data|] eqn:Hfile.
  - destruct (Z.eq_dec (indexOf data (startCommentOf className)) (-1))
      as [Hs|Hs].
    + rewrite (writeApiClassContent_no_start localeCompare st className
                 data Hfile Hs).
      simpl. repeat split; trivial.
    + rewrite (writeApiClassContent_start_cases localeCompare st className
                 data Hfile Hs).
      destruct (getApiClassContent localeCompare (tsFileParser (writer st))
                  className) as [[content|e] p]; simpl in Hp; subst p;
        cbv zeta; try destruct (writable st (mdPath (writer st)));
        simpl; repeat split; trivial.
      intros path Hne. unfold writeFile.
      apply String.eqb_neq in Hne. now rewrite Hne.
  - unfold writeApiClassContent. rewrite Hfile.
    simpl. repeat split; trivial.
Qed.

Lemma writeApiClassContent_frame_witness :
  mdPath
    (writer (snd (writeApiClassContent baseCompare (exState exDocument) "Foo")))
  = mdPath (writer (exState exDocument))
  /\ sourceFile
       (tsFileParser
          (writer
             (snd (writeApiClassContent baseCompare (exState exDocument)
                     "Foo"))))
     = sourceFile (tsFileParser (writer (exState exDocument)))
  /\ reachable
       (tsFileParser
          (writer
             (snd (writeApiClassContent baseCompare (exState exDocument)
                     "Foo"))))
  /\ files
       (snd (writeApiClassContent baseCompare (exState exDocument) "Foo"))
       "CHANGELOG.md"
     = files (exState exDocument) "CHANGELOG.md".
Proof.
  destruct (writeApiClassContent_frame baseCompare (exState exDocument) "Foo")
    as (Hpath & Hsrc & Hreach & Hfiles).
  split; [exact Hpath|]. split; [exact Hsrc|]. split.
  - apply Hreach. apply reachable_new.
  - apply Hfiles. discriminate.
Defined.

(** X10: a call ends in one of four ways.  It throws after the read
    alone, with no file changed and nothing logged: the file cannot be
    read, or the start marker is found and no fragment can be rendered.
    Or the start marker is absent: the failure is logged, no file is
    changed, and the parser is not even consulted.  Or the write
    succeeds: the updated text is written to the writer's path, once,
    after the read, and the success is logged.  Or the write is
    rejected: the call throws after the read and the attempt, with no
    file changed and nothing logged. *)
Theorem writeApiClassContent_outcomes (localeCompare : string -> string -> Z)
    (st : State) (className : string) :
  let r := writeApiClassContent localeCompare st className in
  let path := mdPath (writer st) in
  (exists e,
      fst r = Throw e
      /\ files (snd r) = files st
      /\ effects (snd r) = (effects st ++ [FsRead path])%list
      /\ ((files st path = None /\ e = IoError)
          \/ exists data,
               files st path = Some data
               /\ indexOf data (startCommentOf className) <> -1
               /\ fst (getApiClassContent localeCompare
                         (tsFileParser (writer st)) className) = Throw e))
  \/ (exists data,
         files st path = Some data
         /\ indexOf data (startCommentOf className) = -1
         /\ fst r = Ok tt
         /\ files (snd r) = files st
         /\ tsFileParser (writer (snd r)) = tsFileParser (writer st)
         /\ effects (snd r) =
            (effects st
             ++ [FsRead path; ConsoleError (notFoundMessage className)])%list)
  \/ (exists data content,
         files st path = Some data
         /\ indexOf data (startCommentOf className) <> -1
         /\ fst (getApiClassContent localeCompare
                   (tsFileParser (writer st)) className) = Ok content
         /\ writable st path = true
         /\ fst r = Ok tt
         /\ files (snd r) =
            writeFile (files st) path (updatedContentOf data className content)
         /\ effects (snd r) =
            (effects st
             ++ [ FsRead path;
                  FsWrite path (updatedContentOf data className content);
                  ConsoleLog (insertedMessage className) ])%list)
  \/ (exists data content,
         files st path = Some data
         /\ indexOf data (startCommentOf className) <> -1
         /\ fst (getApiClassContent localeCompare
                   (tsFileParser (writer st)) className) = Ok content
         /\ writable st path = false
         /\ fst r = Throw IoError
         /\ files (snd r) = files st
         /\ effects (snd r) =
            (effects st
             ++ [ FsRead path;
                  FsWriteRejected path
                    (updatedContentOf data className content) ])%list).
Proof.
  cbv zeta.
  destruct (files st (mdPath (writer st))) as [data|] eqn:Hfile.
  - destruct (Z.eq_dec (indexOf data (startCommentOf className)) (-1))
      as [Hs|Hs].
    + right; left. exists data.
      rewrite (writeApiClassContent_no_start localeCompare st className
                 data Hfile Hs).
      simpl. repeat split; trivial.
    + rewrite (writeApiClassContent_start_cases localeCompare st className
                 data Hfile Hs).
      destruct (getApiClassContent localeCompare (tsFileParser (writer st))
                  className) as [[content|e] p].
      * cbv zeta.
        destruct (writable st (mdPath (writer st))) eqn:Hw.
        -- right; right; left. exists data, content.
           simpl. repeat split; trivial.
        -- right; right; right. exists data, content.
           simpl. repeat split; trivial.
      * left. exists e. simpl. repeat split; trivial.
        right. exists data. repeat split; trivial.
  - left. exists IoError. unfold writeApiClassContent. rewrite Hfile.
    simpl. repeat split; trivial. left. now split.
Qed.

(** ** Running the update again *)

Lemma prefix_agree (pat a r1 r2 : string) :
  (String.length pat <= String.length a)%nat ->
  String.prefix pat (a ++ r1) = String.prefix pat (a ++ r2).
Proof.
  revert a; induction pat as [|x pat IH]; intros a Hlen.
  - destruct (a ++ r1), (a ++ r2); reflexivity.
  - destruct a as [|y a]; simpl in Hlen; [lia|]. simpl.
    destruct (ascii_dec x y); [|reflexivity].
    apply IH. lia.
Qed.

(** Where the first occurrence of a pattern lies does not depend on the
    text after that occurrence. *)
Lemma indexOf_from_rest (pat pre r1 r2 : string) (i : Z) :
  indexOf_from pat (pre ++ pat ++ r1) i = i + js_length pre ->
  indexOf_from pat (pre ++ pat ++ r2) i = i + js_length pre.
Proof.
  revert i; induction pre as [|x pre IH]; intros i H.
  - change ("" ++ pat ++ r2) with (pat ++ r2).
    rewrite indexOf_from_unfold, prefix_append.
    unfold js_length; simpl; lia.
  - change (String x pre ++ pat ++ r1)
      with (String x (pre ++ pat ++ r1)) in H.
    change (String x pre ++ pat ++ r2) with (String x (pre ++ pat ++ r2)).
    rewrite indexOf_from_cons in *.
    assert (Hp : String.prefix pat (String x (pre ++ pat ++ r1))
                 = String.prefix pat (String x (pre ++ pat ++ r2))).
    { change (String x (pre ++ pat ++ r1))
        with (String x pre ++ pat ++ r1).
      change (String x (pre ++ pat ++ r2))
        with (String x pre ++ pat ++ r2).
      rewrite <- !append_assoc. apply prefix_agree.
      rewrite length_append. lia. }
    rewrite <- Hp.
    destruct (String.prefix pat (String x (pre ++ pat ++ r1))).
    + unfold js_length in H; simpl String.length in H; lia.
    + replace (i + js_length (String x pre)) with (i + 1 + js_length pre)
        in * by (unfold js_length; simpl String.length; lia).
      now apply IH.
Qed.

(** X11: running the update a second time writes the same text again,
    when the writes succeed.  The condition is that in the text written
    by the first run the first end marker is the one that follows the
    fragment, that is, the end marker occurs neither in the fragment nor
    before it. *)
Theorem writeApiClassContent_twice (localeCompare : string -> string -> Z)
    (st : State) (className data content : string) (p : TsFileParser) :
  files st (mdPath (writer st)) = Some data ->
  writable st (mdPath (writer st)) = true ->
  indexOf data (startCommentOf className) <> -1 ->
  getApiClassContent localeCompare (tsFileParser (writer st)) className
  = (Ok content, p) ->
  indexOf (updatedContentOf data className content) (endCommentOf className)
  = indexOf data (startCommentOf className)
    + js_length (startCommentOf className) + 1 + js_length content ->
  let st1 := snd (writeApiClassContent localeCompare st className) in
  let r2 := writeApiClassContent localeCompare st1 className in
  files st1 (mdPath (writer st))
  = Some (updatedContentOf data className content)
  /\ fst r2 = Ok tt
  /\ (forall path, files (snd r2) path = files st1 path)
  /\ effects (snd r2) =
     (effects st1
      ++ [ FsRead (mdPath (writer st));
           FsWrite (mdPath (writer st))
             (updatedContentOf data className content);
           ConsoleLog (insertedMessage className) ])%list.
Proof.
  intros Hfile Hw Hstart Hfrag Hend.
  destruct (indexOf_found _ _ Hstart) as (pre & rest & Hd & Hi).
  set (start := startCommentOf className) in *.
  set (suffix := slice_from data (indexOf data (endCommentOf className))).
  assert (Hprefix : slice data 0 (js_length (pre ++ start)) = pre ++ start)
    by (rewrite Hd, <- append_assoc; apply slice_prefix).
  assert (Hlen : js_length (pre ++ start) = js_length pre + js_length start)
    by (unfold js_length; rewrite length_append; lia).
  assert (Hup : updatedContentOf data className content
                = pre ++ start ++ nl ++ content ++ suffix).
  { unfold updatedContentOf. fold start. fold suffix.
    rewrite Hi, <- Hlen, Hprefix. now rewrite !append_assoc. }
  set (updated := updatedContentOf data className content) in *.
  assert (Hstart' : indexOf updated start = js_length pre).
  { rewrite Hup. unfold indexOf in *.
    apply (indexOf_from_rest start pre rest). rewrite <- Hd. simpl. exact Hi. }
  cbv zeta.
  rewrite (writeApiClassContent_start localeCompare st className data
             Hfile Hstart Hw), Hfrag.
  fold updated. simpl snd.
  set (st1 := withEffects st p
                (writeFile (files st) (mdPath (writer st)) updated) _).
  assert (Hfile1 : files st1 (mdPath (writer st1)) = Some updated)
    by (simpl; unfold writeFile; now rewrite String.eqb_refl).
  split; [exact Hfile1|].
  assert (Hstart1 : indexOf updated (startCommentOf className) <> -1).
  { fold start. rewrite Hstart'. unfold js_length. lia. }
  rewrite (writeApiClassContent_start localeCompare st1 className updated
             Hfile1 Hstart1 Hw).
  change (tsFileParser (writer st1)) with p.
  rewrite (getApiClassContent_again localeCompare _ _ _ _ Hfrag).
  assert (Hup2 : updatedContentOf updated className content = updated).
  { unfold updatedContentOf at 1. fold start.
    rewrite Hstart', Hend, Hi.
    replace (js_length pre + js_length start + 1 + js_length content)
      with (js_length (pre ++ start ++ nl ++ content))
      by (unfold js_length; rewrite !length_append; simpl String.length; lia).
    rewrite <- Hlen.
    assert (H1 : slice updated 0 (js_length (pre ++ start)) = pre ++ start).
    { rewrite Hup.
      replace (pre ++ start ++ nl ++ content ++ suffix)
        with ((pre ++ start) ++ nl ++ content ++ suffix)
        by (now rewrite !append_assoc).
      apply slice_prefix. }
    assert (H2 : slice_from updated (js_length (pre ++ start ++ nl ++ content))
                 = suffix).
    { rewrite Hup.
      replace (pre ++ start ++ nl ++ content ++ suffix)
        with ((pre ++ start ++ nl ++ content) ++ suffix)
        by (now rewrite !append_assoc).
      apply slice_from_suffix. }
    rewrite H1, H2, Hup. now rewrite !append_assoc. }
  cbv zeta. rewrite Hup2. simpl. repeat split.
  intros path. unfold writeFile.
  now destruct (String.eqb path (mdPath (writer st))).
Qed.

Lemma writeApiClassContent_twice_witness :
  let content := apiClassContentOf baseCompare (classDataOf exFoo) in
  let st1 :=
    snd (writeApiClassContent baseCompare (exState exDocument) "Foo") in
  let r2 := writeApiClassContent baseCompare st1 "Foo" in
  files st1 (mdPath (writer (exState exDocument)))
  = Some (updatedContentOf exDocument "Foo" content)
  /\ fst r2 = Ok tt
  /\ (forall path, files (snd r2) path = files st1 path)
  /\ effects (snd r2) =
     (effects st1
      ++ [ FsRead (mdPath (writer (exState exDocument)));
           FsWrite (mdPath (writer (exState exDocument)))
             (updatedContentOf exDocument "Foo" content);
           ConsoleLog (insertedMessage "Foo") ])%list.
Proof.
  apply (writeApiClassContent_twice baseCompare (exState exDocument) "Foo"
           exDocument (apiClassContentOf baseCompare (classDataOf exFoo))
           (snd (getClassData (newTsFileParser exClasses) "Foo"))).
  - reflexivity.
  - reflexivity.
  - vm_compute. discriminate.
  - reflexivity.
  - vm_compute. reflexivity.
Defined.

(** ** The order of the members *)

Lemma sorted_permutation_unique {A} (R : A -> A -> Prop) (l1 l2 : list A) :
  (forall a b, In a l1 -> In b l1 -> R a b -> R b a -> a = b) ->
  StronglySorted R l1 -> StronglySorted R l2 -> Permutation l1 l2 ->
  l1 = l2.
Proof.
  revert l2; induction l1 as [|x l1 IH]; intros l2 Hanti Hs1 Hs2 Hperm.
  - apply Permutation_nil in Hperm. now subst.
  - destruct l2 as [|y l2].
    + apply Permutation_sym, Permutation_nil in Hperm. discriminate.
    + inversion Hs1 as [|? ? Hs1' Hall1]; subst.
      inversion Hs2 as [|? ? Hs2' Hall2]; subst.
      assert (Hxy : x = y).
      { assert (Hx : In x (y :: l2))
          by (apply (Permutation_in _ Hperm); now left).
        assert (Hy : In y (x :: l1))
          by (apply (Permutation_in _ (Permutation_sym Hperm)); now left).
        destruct Hx as [->|Hx]; [reflexivity|].
        destruct Hy as [->|Hy]; [reflexivity|].
        rewrite Forall_forall in Hall1, Hall2.
        apply Hanti; [now left | now right | now apply Hall1
                     | now apply Hall2]. }
      subst y. f_equal.
      apply IH; trivial.
      * intros a b Ha Hb. apply Hanti; now right.
      * now apply Permutation_cons_inv in Hperm.
Qed.

Lemma own_get_permutation {V} (o1 o2 : JsObject V) (k : string) :
  NoDup (map fst o1) -> Permutation o1 o2 -> own_get o1 k = own_get o2 k.
Proof.
  intros Hnd Hperm.
  assert (Hnd2 : NoDup (map fst o2))
    by (eapply Permutation_NoDup; [apply Permutation_map; exact Hperm
                                  | exact Hnd]).
  destruct (own_get o1 k) as [v|] eqn:E1.
  - apply own_get_In in E1. apply (Permutation_in _ Hperm) in E1.
    symmetry. now apply In_own_get.
  - destruct (own_get o2 k) as [v|] eqn:E2; [|reflexivity].
    apply own_get_In in E2.
    apply (Permutation_in _ (Permutation_sym Hperm)) in E2.
    apply (In_own_get _ _ _ Hnd) in E2. congruence.
Qed.

(** X12: when no two keys of a member map collate as equal, the section
    printed for the map does not depend on the order in which its
    entries were inserted: two maps with the same entries print the
    same section. *)
Theorem printMap_insertion_order (localeCompare : string -> string -> Z)
    {R} `{MemberRecord R} (title : string) (o1 o2 : JsObject R) :
  (forall a b, localeCompare a b <= 0 \/ localeCompare b a <= 0) ->
  (forall a b c,
      localeCompare a b <= 0 -> localeCompare b c <= 0 ->
      localeCompare a c <= 0) ->
  (forall a b,
      In a (map fst o1) -> In b (map fst o1) ->
      localeCompare a b <= 0 -> localeCompare b a <= 0 -> a = b) ->
  NoDup (map fst o1) ->
  Permutation o1 o2 ->
  printMap localeCompare title o1 = printMap localeCompare title o2.
Proof.
  intros Htotal Htrans Hanti Hnd Hperm.
  assert (Hkeys : Permutation (Object_keys o1) (Object_keys o2)).
  { rewrite !Object_keys_perm. now apply Permutation_map. }
  assert (Hsorted : forall o : JsObject R,
             StronglySorted (fun a b => localeCompare a b <= 0)
               (sortKeys localeCompare (Object_keys o))).
  { intros o.
    apply (StronglySorted_weaken
             (fun a b => (localeCompare a b <=? 0) = true)).
    - intros a b. apply Z.leb_le.
    - apply stable_sort_ordered.
      + intros a b. rewrite !Z.leb_le. apply Htotal.
      + intros a b c. rewrite !Z.leb_le. apply Htrans. }
  assert (Hsame : sortKeys localeCompare (Object_keys o1)
                  = sortKeys localeCompare (Object_keys o2)).
  { apply (sorted_permutation_unique (fun a b => localeCompare a b <= 0));
      try apply Hsorted.
    - intros a b Ha Hb. apply Hanti.
      + apply (Permutation_in _ (sortKeys_perm _ _)) in Ha.
        now apply (Permutation_in _ (Object_keys_perm _)) in Ha.
      + apply (Permutation_in _ (sortKeys_perm _ _)) in Hb.
        now apply (Permutation_in _ (Object_keys_perm _)) in Hb.
    - rewrite !sortKeys_perm. exact Hkeys. }
  unfold printMap. rewrite <- Hsame.
  destruct (Object_keys o1) as [|k1 ks1] eqn:E1;
    destruct (Object_keys o2) as [|k2 ks2] eqn:E2.
  - reflexivity.
  - apply Permutation_nil in Hkeys. discriminate.
  - apply Permutation_sym, Permutation_nil in Hkeys. discriminate.
  - f_equal. f_equal. f_equal. apply map_ext. intros k.
    unfold printKey, js_get.
    now rewrite (own_get_permutation o1 o2 k Hnd Hperm).
Qed.

Lemma printMap_insertion_order_witness :
  printMap baseCompare "Methods" (getPublicMethods exFoo [])
  = printMap baseCompare "Methods" (rev (getPublicMethods exFoo [])).
Proof.
  apply (printMap_insertion_order baseCompare "Methods"
           (getPublicMethods exFoo []) (rev (getPublicMethods exFoo []))).
  - exact baseCompare_total.
  - exact baseCompare_trans.
  - intros a b Ha Hb. vm_compute in Ha, Hb.
    destruct Ha as [<-|[<-|[]]]; destruct Hb as [<-|[<-|[]]];
      vm_compute; intros H1 H2; try reflexivity; congruence.
  - vm_compute. repeat constructor; simpl; intuition discriminate.
  - apply Permutation_rev.
Defined.

(** ** What the registry holds *)

(** X13: in a reachable parser the registry has one entry per key; no
    key is a name inherited from [Object.prototype]; and the entry
    under a key is the data of the first class of the source file that
    bears that name, with that class's title. *)
Theorem registry_entries_are_class_data (this : TsFileParser) :
  reachable this ->
  NoDup (map fst (classesDataMap this))
  /\ forall k d,
       In (k, d) (classesDataMap this) ->
       inherited_key k = false
       /\ exists c,
            find (name_is k) (sourceFile this) = Some c
            /\ getName c = Some k
            /\ d = classDataOf c
            /\ ClassDataMap.title d = getTypedClassName c.
Proof.
  intros Hr. destruct (reachable_registry_ok _ Hr) as [Hnd Hreg].
  split; [exact Hnd|].
  intros k d Hin. destruct (Hreg _ _ Hin) as (Hinh & c & Hf & ->).
  split; [exact Hinh|]. exists c. repeat split; trivial.
  apply find_some in Hf as [_ Hn]. now apply name_is_true.
Qed.

Lemma registry_entries_are_class_data_witness :
  NoDup
    (map fst
       (classesDataMap (snd (getClassData (newTsFileParser exClasses) "Foo"))))
  /\ inherited_key "Foo" = false
  /\ exists c,
       find (name_is "Foo")
         (sourceFile (snd (getClassData (newTsFileParser exClasses) "Foo")))
       = Some c
       /\ getName c = Some "Foo"
       /\ classDataOf exFoo = classDataOf c
       /\ ClassDataMap.title (classDataOf exFoo) = getTypedClassName c.
Proof.
  destruct (registry_entries_are_class_data
              (snd (getClassData (newTsFileParser exClasses) "Foo")))
    as [Hnd Hreg].
  - apply (reachable_call (newTsFileParser exClasses) "Foo"
             (Ok (Own (classDataOf exFoo)))).
    + apply reachable_new.
    + reflexivity.
  - split; [exact Hnd|].
    apply (Hreg "Foo" (classDataOf exFoo)). simpl. left. reflexivity.
Defined.

(** ** The script *)

Lemma writeApiClassContent_counts (localeCompare : string -> string -> Z)
    (st : State) (className : string) :
  exists es,
    effects (snd (writeApiClassContent localeCompare st className))
    = (effects st ++ es)%list
    /\ countReads es = 1%nat
    /\ (countWrites es <= 1)%nat
    /\ mdPath (writer (snd (writeApiClassContent localeCompare st className)))
       = mdPath (writer st).
Proof.
  destruct (files st (mdPath (writer st))) as [data|] eqn:Hfile.
  - destruct (Z.eq_dec (indexOf data (startCommentOf className)) (-1))
      as [Hs|Hs].
    + rewrite (writeApiClassContent_no_start localeCompare st className
                 data Hfile Hs).
      eexists. simpl. repeat split. unfold countWrites; simpl; lia.
    + rewrite (writeApiClassContent_start_cases localeCompare st className
                 data Hfile Hs).
      destruct (getApiClassContent localeCompare (tsFileParser (writer st))
                  className) as [[content|e] p];
        cbv zeta; try destruct (writable st (mdPath (writer st)));
        eexists; simpl; repeat split; unfold countWrites; simpl; lia.
  - unfold writeApiClassContent. rewrite Hfile.
    eexists. simpl. repeat split. unfold countWrites; simpl; lia.
Qed.

Lemma countReads_app (es1 es2 : list Effect) :
  countReads (es1 ++ es2) = (countReads es1 + countReads es2)%nat.
Proof. unfold countReads. now rewrite filter_app, length_app. Qed.

Lemma countWrites_app (es1 es2 : list Effect) :
  countWrites (es1 ++ es2) = (countWrites es1 + countWrites es2)%nat.
Proof. unfold countWrites. now rewrite filter_app, length_app. Qed.

(** X14: the script makes its second call exactly when the first one
    does not throw: its result is then that of the second call, made on
    the state the first one left, and otherwise the error of the first.
    It reads the Markdown file once for each call it makes, twice or
    once accordingly, and writes it at most as often.  So a first call
    that throws leaves the second class untouched, while missing
    markers for the first class do not stop the second. *)
Theorem main_reads_and_writes (localeCompare : string -> string -> Z)
    (st : State) :
  let first := writeApiClassContent localeCompare st "SinglyLinkedList" in
  main localeCompare st =
  match fst first with
  | Ok _ => writeApiClassContent localeCompare (snd first) "DoublyLinkedList"
  | Throw e => (Throw e, snd first)
  end
  /\ exists es,
       effects (snd (main localeCompare st)) = (effects st ++ es)%list
       /\ countReads es =
          match fst first with
          | Ok _ => 2%nat
          | Throw _ => 1%nat
          end
       /\ (countWrites es <= countReads es)%nat
       /\ mdPath (writer (snd (main localeCompare st))) = mdPath (writer st).
Proof.
  cbv zeta. unfold main.
  destruct (writeApiClassContent_counts localeCompare st "SinglyLinkedList")
    as (es1 & He1 & Hr1 & Hw1 & Hp1).
  destruct (writeApiClassContent localeCompare st "SinglyLinkedList")
    as [[[]|e] st1]; simpl in *.
  - split; [reflexivity|].
    destruct (writeApiClassContent_counts localeCompare st1
                "DoublyLinkedList") as (es2 & He2 & Hr2 & Hw2 & Hp2).
    exists (es1 ++ es2)%list.
    rewrite He2, He1, <- app_assoc, countReads_app, countWrites_app.
    repeat split; try lia. congruence.
  - split; [reflexivity|].
    exists es1. repeat split; try lia; trivial.
Qed.
